(** * Storage-migration dashboard (scripts/storage/dashboard/app.py)

    A shallow embedding of the Flask backend that supervises one external
    migration process: the JSON documents it keeps on disk, the HTTP
    handlers, the background [run_migration] thread and the server-sent
    event stream fed from the global [update_queue].

    Conventions of the embedding:
    - a JSON value / Python object is a [json]; a Python [dict] is an
      association list in insertion order ([d[k] = v] rewrites in place or
      appends, [d.get(k)] reads the first binding);
    - Python numbers are rationals ([Q]), as every finite binary64 value is
      one: [time.time()] readings are opaque inputs, and the float division
      and multiplication of [get_transfers] round their exact result with
      [round64], the rounding of binary64 arithmetic;
    - a string is a sequence of code points below 256;
    - the file system is a finite map from paths to files, and a save
      succeeds (the directory can be made and the file written);
    - a handler returns a [result]: the [jsonify] response with its status
      code, or the Python exception that escapes (Flask answers 500);
    - nondeterminism of the outside world (clock readings, the behaviour of
      the child process, what other threads did meanwhile) is an explicit
      argument. *)

From Stdlib Require Import ZArith QArith Qround Lqa String Ascii List Lia.
From stdpp Require Import gmap strings list fin_maps.
Import ListNotations.

Set Warnings "-register-all".
Local Open Scope string_scope.
Local Open Scope Z_scope.

(* ===================================================================== *)
(** ** Python values *)
(* ===================================================================== *)

Inductive json : Type :=
| JNull
| JBool (b : bool)
| JNum (q : Q)
| JStr (s : string)
| JArr (items : list json)
| JObj (fields : list (string * json)).

(** Exceptions that can escape the handlers on ill-shaped documents. *)
Inductive exn := AttributeError | TypeError.

(** [bool(x)]: what [if x], [not x] and [x or y] test. *)
Definition truthy (x : json) : bool :=
  match x with
  | JNull => false
  | JBool b => b
  | JNum q => negb (Qnum q =? 0)
  | JStr s => negb (String.eqb s "")
  | JArr items => match items with [] => false | _ => true end
  | JObj fields => match fields with [] => false | _ => true end
  end.

(** [x or y] *)
Definition py_or (x y : json) : json := if truthy x then x else y.

Fixpoint dict_lookup (k : string) (d : list (string * json)) : option json :=
  match d with
  | [] => None
  | (k', v) :: d' => if String.eqb k k' then Some v else dict_lookup k d'
  end.

(** [d.get(k, dflt)]; [d.get(k)] is [dict_get k JNull d] ([None]). *)
Definition dict_get (k : string) (dflt : json) (d : list (string * json)) : json :=
  match dict_lookup k d with
  | Some v => v
  | None => dflt
  end.

(** [d[k] = v] *)
Fixpoint dict_set (k : string) (v : json) (d : list (string * json))
  : list (string * json) :=
  match d with
  | [] => [(k, v)]
  | (k', v') :: d' =>
      if String.eqb k k' then (k, v) :: d' else (k', v') :: dict_set k v d'
  end.

(** [s.strip()]; [is_space] is [str.isspace] on the code points below 256:
    tab to carriage return, the four separators, the space, NEL and the
    no-break space. *)
Definition is_space (c : ascii) : bool :=
  let n := nat_of_ascii c in
  ((9 <=? n) && (n <=? 13) || (28 <=? n) && (n <=? 32)
   || (n =? 133) || (n =? 160))%nat.

Fixpoint lstrip (s : string) : string :=
  match s with
  | EmptyString => EmptyString
  | String c s' => if is_space c then lstrip s' else s
  end.

Fixpoint rstrip (s : string) : string :=
  match s with
  | EmptyString => EmptyString
  | String c s' =>
      match rstrip s' with
      | EmptyString => if is_space c then EmptyString else String c EmptyString
      | r => String c r
      end
  end.

Definition strip (s : string) : string := lstrip (rstrip s).

(** [os.path.join(a, b)] for two components. *)
Definition ends_with_slash (a : string) : bool :=
  match String.get (String.length a - 1) a with
  | Some c => Ascii.eqb c "/"
  | None => false
  end.

Definition path_join (a b : string) : string :=
  match b with
  | String "/" _ => b
  | _ => if (String.eqb a "") || ends_with_slash a then a ++ b else a ++ "/" ++ b
  end.

(* ===================================================================== *)
(** ** Files *)
(* ===================================================================== *)

(** A file either parses as JSON or makes [open]/[json.load] raise. *)
Inductive file := JsonFile (doc : json) | Unreadable.

(** [load_json_file(filepath, default=None)] *)
Definition load_json_file (fs : gmap string file) (filepath : string) (default : json)
  : json :=
  match fs !! filepath with
  | Some (JsonFile doc) => doc
  | _ => py_or default (JObj [])
  end.

(** [save_json_file(filepath, data)], for a path whose directory can be
    made and whose file can be written. *)
Definition save_json_file (fs : gmap string file) (filepath : string) (data : json)
  : gmap string file :=
  <[filepath := JsonFile data]> fs.

(* ===================================================================== *)
(** ** The server *)
(* ===================================================================== *)

Inductive result :=
| Response (code : Z) (body : json)
| Raised (e : exn).

(** The status line Flask sends. *)
Definition http_status (r : result) : Z :=
  match r with
  | Response code _ => code
  | Raised _ => 500
  end.

(** Process-wide state: the documents on disk, the global [update_queue]
    (oldest first) and the [run_migration] threads started so far, each with
    its [(source, target)] arguments. *)
Record world := World {
  files : gmap string file;
  update_queue : list json;
  threads : list (json * json)
}.

Definition with_files (fs : gmap string file) (w : world) : world :=
  World fs (update_queue w) (threads w).

(** [update_queue.put(item)] *)
Definition queue_put (item : json) (w : world) : world :=
  World (files w) (update_queue w ++ [item]) (threads w).

(** [threading.Thread(target=run_migration, args=(source, target)).start()] *)
Definition thread_start (source target : json) (w : world) : world :=
  World (files w) (update_queue w) (threads w ++ [(source, target)]).

(** Floating point. Python divides and multiplies in binary64: the exact
    result, rounded to the nearest representable number, ties to the even
    significand. A finite binary64 number is an integer multiple of
    [2^-1074]; with a significand of 53 bits, the numbers next to [x] are
    [2^c * 2^-1074] apart, where [c] is 0 up to [2^53 * 2^-1074] (the
    subnormal numbers and the first binade) and grows by one with each
    binade. Results beyond the largest finite number are outside the
    model. *)

(** The nearest integer, ties to even. *)
Definition rne (s : Q) : Z :=
  let q := Qfloor s in
  match (s - inject_Z q ?= 1 # 2)%Q with
  | Lt => q
  | Gt => q + 1
  | Eq => if Z.even q then q else q + 1
  end.

Definition round64_pos (x : Q) : Q :=
  let y := (x * inject_Z (2 ^ 1074))%Q in
  let c := Z.max (Z.log2 (Qfloor y) - 52) 0 in
  (inject_Z (rne (y / inject_Z (2 ^ c)) * 2 ^ c) / inject_Z (2 ^ 1074))%Q.

Definition round64 (x : Q) : Q :=
  if Qle_bool 0 x then round64_pos x else (- round64_pos (- x))%Q.

(** What the child process does, as seen by [run_migration]: the lines it
    prints and how it ends. What it writes to disk is part of [meanwhile]
    below. *)
Inductive proc_end :=
| Exit (returncode : Z)
| ReadRaises (e : string).

Inductive process :=
| PopenRaises (e : string)
| Spawned (stdout : list (string * Q)) (fin : proc_end).

Section Dashboard.

(** [os.getenv('WORKSPACE_DIR', '/opt/storage-migration')] *)
Variable WORKSPACE_DIR : string.

Definition METRICS_FILE := path_join WORKSPACE_DIR "transfer_metrics/historical.json".
Definition PREDICTIONS_FILE := path_join WORKSPACE_DIR "predictions/resources/prediction.json".
Definition STATUS_FILE := path_join WORKSPACE_DIR "status/current.json".

(** [GET /api/status]; [metrics] is [get_system_metrics()] and [now] is
    [datetime.now().isoformat()]. *)
Definition get_status (metrics : json) (now : string) (w : world) : result :=
  let status := load_json_file (files w) STATUS_FILE JNull in
  Response 200 (JObj [("status", status);
                      ("system_metrics", metrics);
                      ("timestamp", JStr now)]).

(** [GET /api/metrics] *)
Definition get_metrics (current : json) (w : world) : result :=
  let metrics := load_json_file (files w) METRICS_FILE JNull in
  let predictions := load_json_file (files w) PREDICTIONS_FILE JNull in
  Response 200 (JObj [("historical", metrics);
                      ("predictions", predictions);
                      ("current", current)]).

(** [metrics.get('transfers', [])] *)
Definition transfers_of (metrics : json) : exn + json :=
  match metrics with
  | JObj d => inr (dict_get "transfers" (JArr []) d)
  | _ => inl AttributeError
  end.

(** [len(x)] *)
Definition py_len (x : json) : exn + nat :=
  match x with
  | JArr items => inr (length items)
  | JObj d => inr (length d)
  | JStr s => inr (String.length s)
  | _ => inl TypeError
  end.

(** The elements [for t in x] runs over. *)
Definition py_iter (x : json) : exn + list json :=
  match x with
  | JArr items => inr items
  | JObj d => inr (map (fun kv => JStr (fst kv)) d)
  | JStr s => inr (map (fun c => JStr (String c EmptyString)) (list_ascii_of_string s))
  | _ => inl TypeError
  end.

(** [sum(1 for t in ts if t.get('success'))] *)
Fixpoint count_success (ts : list json) : exn + nat :=
  match ts with
  | [] => inr 0%nat
  | t :: ts' =>
      match t with
      | JObj d =>
          match count_success ts' with
          | inr n => inr (if truthy (dict_get "success" JNull d) then S n else n)
          | inl e => inl e
          end
      | _ => inl AttributeError
      end
  end.

(** [sum(...) / max(len(...), 1) * 100]: the true division of two ints
    gives the rounded quotient, and the product with 100 is rounded again. *)
Definition success_rate (successes total : nat) : Q :=
  round64
    (round64 (inject_Z (Z.of_nat successes) / inject_Z (Z.of_nat (Nat.max total 1)))
     * 100)%Q.

(** [GET /api/transfers] *)
Definition get_transfers (w : world) : result :=
  let metrics := load_json_file (files w) METRICS_FILE JNull in
  match transfers_of metrics with
  | inl e => Raised e
  | inr transfers =>
      match py_len transfers with
      | inl e => Raised e
      | inr total =>
          match py_iter transfers with
          | inl e => Raised e
          | inr ts =>
              match count_success ts with
              | inl e => Raised e
              | inr successes =>
                  Response 200
                    (JObj [("transfers", transfers);
                           ("total_count", JNum (inject_Z (Z.of_nat total)));
                           ("success_rate", JNum (success_rate successes total))])
              end
          end
      end
  end.

(** [POST /api/start]; [params] is [request.json]. *)
Definition start_migration (params : json) (w : world) : result * world :=
  match params with
  | JObj d =>
      let source := dict_get "source" JNull d in
      let target := dict_get "target" JNull d in
      if negb (truthy source) || negb (truthy target) then
        (Response 400 (JObj [("error", JStr "Source and target are required")]), w)
      else
        (Response 200 (JObj [("status", JStr "started");
                             ("message", JStr "Migration started")]),
         thread_start source target w)
  | _ => (Raised AttributeError, w)
  end.

(** [POST /api/stop] *)
Definition stop_migration (w : world) : result * world :=
  match load_json_file (files w) STATUS_FILE JNull with
  | JObj status =>
      let status := dict_set "state" (JStr "stopping") status in
      (Response 200 (JObj [("status", JStr "stopping");
                           ("message", JStr "Migration is being stopped")]),
       with_files (save_json_file (files w) STATUS_FILE (JObj status)) w)
  | _ => (Raised TypeError, w)
  end.

(** The [while True] loop of [run_migration]: one [put] per line read,
    each line paired with the clock reading taken for it. *)
Fixpoint monitor_progress (stdout : list (string * Q)) (w : world) : world :=
  match stdout with
  | [] => w
  | (output, now) :: rest =>
      monitor_progress rest
        (if negb (String.eqb output "") then
           queue_put (JObj [("type", JStr "progress");
                            ("message", JStr (strip output));
                            ("timestamp", JNum now)]) w
         else w)
  end.

(** The record [run_migration] builds first. *)
Definition initial_status (source target : json) (start_time : Q)
  : list (string * json) :=
  [("state", JStr "running"); ("source", source); ("target", target);
   ("start_time", JNum start_time)].

(** "Update final status": the tail of the [try] block. *)
Definition final_status (status : list (string * json)) (returncode : Z) (now : Q)
  : list (string * json) :=
  let status :=
    dict_set "state" (JStr (if returncode =? 0 then "completed" else "failed")) status in
  dict_set "end_time" (JNum now) status.

(** The [except Exception as e] handler; [e] is [str(e)]. When the stored
    document is not a dict the assignment raises again and the thread
    dies where it stands. *)
Definition on_exception (e : string) (now : Q) (w : world) : world :=
  match load_json_file (files w) STATUS_FILE JNull with
  | JObj status =>
      let status := dict_set "state" (JStr "failed") status in
      let status := dict_set "error" (JStr e) status in
      let w := with_files (save_json_file (files w) STATUS_FILE (JObj status)) w in
      queue_put (JObj [("type", JStr "error");
                       ("message", JStr e);
                       ("timestamp", JNum now)]) w
  | _ => w
  end.

(** [run_migration(source, target)], run by the thread [start_migration]
    starts. [start_time] and [end_time] are the clock readings at its first
    and last [time.time()] (the second one stamps either [end_time] or the
    error event); [p] is what the child process prints and how it ends;
    [meanwhile] is the effect on the world of everything else that happens
    while the child runs: the files the child writes and what the other
    threads do. *)
Definition run_migration (source target : json) (start_time : Q) (p : process)
    (end_time : Q) (meanwhile : world -> world) (w : world) : world :=
  let status := initial_status source target start_time in
  let w := with_files (save_json_file (files w) STATUS_FILE (JObj status)) w in
  let w := meanwhile w in
  match p with
  | PopenRaises e => on_exception e end_time w
  | Spawned stdout fin =>
      let w := monitor_progress stdout w in
      match fin with
      | ReadRaises e => on_exception e end_time w
      | Exit returncode =>
          let status := final_status status returncode end_time in
          with_files (save_json_file (files w) STATUS_FILE (JObj status)) w
      end
  end.

(** The start-up block under [if __name__ == '__main__']. *)
Definition main_init (w : world) : world :=
  match files w !! STATUS_FILE with
  | Some _ => w
  | None =>
      with_files (save_json_file (files w) STATUS_FILE
                    (JObj [("state", JStr "idle")])) w
  end.

(** [GET|POST /api/config]; [body] is [request.json]. *)
Inductive http_method := GET | POST.

Definition config_file := path_join WORKSPACE_DIR "config/preflight.json".

Definition handle_config (method : http_method) (body : json) (w : world)
  : result * world :=
  match method with
  | POST =>
      let new_config := body in
      (Response 200 (JObj [("status", JStr "success");
                           ("message", JStr "Configuration updated")]),
       with_files (save_json_file (files w) config_file new_config) w)
  | GET => (Response 200 (load_json_file (files w) config_file JNull), w)
  end.

(** [n] Stop requests in a row, with their responses. *)
Fixpoint stop_times (n : nat) (w : world) : list result * world :=
  match n with
  | O => ([], w)
  | S n' =>
      let (r, w') := stop_migration w in
      let (rs, w'') := stop_times n' w' in
      (r :: rs, w'')
  end.

(** What a reader of the State Store gets: [load_json_file(STATUS_FILE)]. *)
Definition persisted (w : world) : json :=
  load_json_file (files w) STATUS_FILE JNull.

End Dashboard.

(** *** The events [run_migration] puts on the queue *)

Definition progress_event (output : string) (now : Q) : json :=
  JObj [("type", JStr "progress"); ("message", JStr (strip output));
        ("timestamp", JNum now)].

Definition error_event (e : string) (now : Q) : json :=
  JObj [("type", JStr "error"); ("message", JStr e); ("timestamp", JNum now)].

(** The lines the monitoring loop acts on: [if output:]. *)
Definition nonempty_line (line : string * Q) : bool :=
  negb (String.eqb (fst line) "").

(** A thread whose two arguments are both truthy. *)
Definition truthy_args (args : json * json) : bool :=
  truthy (fst args) && truthy (snd args).

(** *** Reading a JobStatus record *)

Definition is_set (k : string) (status : list (string * json)) : bool :=
  match dict_lookup k status with
  | Some _ => true
  | None => false
  end.

Definition is_state (name : string) (status : list (string * json)) : bool :=
  match dict_lookup "state" status with
  | Some (JStr s) => String.eqb s name
  | _ => false
  end.

(** The record invariant of the data model: [end_time] is set iff the state
    is completed or failed, and [error] is set iff the state is failed. *)
Definition record_invariant (status : list (string * json)) : bool :=
  Bool.eqb (is_set "end_time" status)
           (is_state "completed" status || is_state "failed" status)
  && Bool.eqb (is_set "error" status) (is_state "failed" status).

(** The entries of a transfers list that carry a truthy success flag. *)
Definition truthy_success (t : json) : bool :=
  match t with
  | JObj d => truthy (dict_get "success" JNull d)
  | _ => false
  end.

Definition is_dict (t : json) : bool :=
  match t with
  | JObj _ => true
  | _ => false
  end.

(* ===================================================================== *)
(** ** The event stream ([GET /api/events]) *)
(* ===================================================================== *)

(** Every connection runs its own [generate()] loop, and all of them call
    [get(timeout=30)] on the one global [update_queue]. The model is a
    discrete-time transition system: the clock counts time units, a blocked
    [get] is a deadline, and time passes only while every consumer is
    blocked (an item that is available, or a timeout that is due, is taken
    before the clock moves on). *)
Module Stream.

(** What [generate()] yields: ["data: " + json.dumps(...) + "\n\n"] with
    either the dequeued update or the heartbeat literal. *)
Inductive sse := Data (update : json) | Heartbeat.

Definition sse_json (m : sse) : json :=
  match m with
  | Data update => update
  | Heartbeat => JObj [("type", JStr "heartbeat")]
  end.

(** The three ways a [Queue.get(timeout=...)] call can stand: it returns
    the oldest item, raises [queue.Empty], or keeps waiting. *)
Inductive got :=
| Item (update : json) (rest : list json)
| Empty
| Blocked.

Definition queue_get (q : list json) (expired : bool) : got :=
  match q with
  | update :: rest => Item update rest
  | [] => if expired then Empty else Blocked
  end.

Definition timeout : Z := 30.

(** One consumer: when its generator started, when its pending [get]
    expires, and the frames it has yielded, oldest first, each stamped
    with the time of the yield. *)
Record subscriber := Subscriber {
  since : Z;
  deadline : Z;
  yielded : list (Z * sse)
}.

Record bus := Bus {
  now : Z;
  update_queue : list json;
  subs : list subscriber
}.

(** One turn of the [while True] loop of [generate()] at time [t]: the
    [try] branch yields the update, the [except queue.Empty] branch the
    heartbeat, and the loop re-enters [get(timeout=30)]. [None]: the
    consumer stays blocked. *)
Definition generate (t : Z) (q : list json) (s : subscriber)
  : option (list json * subscriber) :=
  match queue_get q (deadline s <=? t) with
  | Item update rest =>
      Some (rest, Subscriber (since s) (t + timeout) (yielded s ++ [(t, Data update)]))
  | Empty =>
      Some (q, Subscriber (since s) (t + timeout) (yielded s ++ [(t, Heartbeat)]))
  | Blocked => None
  end.

Definition blocked (t : Z) (q : list json) (s : subscriber) : bool :=
  match generate t q s with
  | None => true
  | Some _ => false
  end.

Inductive action :=
| Put (update : json)   (* [update_queue.put(update)] *)
| Connect               (* a client opens [/api/events] *)
| Wake (i : nat)        (* the [get] of consumer [i] returns or raises *)
| Tick.                 (* one time unit passes *)

Definition step (a : action) (b : bus) : option bus :=
  match a with
  | Put update => Some (Bus (now b) (update_queue b ++ [update]) (subs b))
  | Connect =>
      Some (Bus (now b) (update_queue b)
              (subs b ++ [Subscriber (now b) (now b + timeout) []]))
  | Wake i =>
      match subs b !! i with
      | Some s =>
          match generate (now b) (update_queue b) s with
          | Some (q, s') => Some (Bus (now b) q (<[i := s']> (subs b)))
          | None => None
          end
      | None => None
      end
  | Tick =>
      if forallb (blocked (now b) (update_queue b)) (subs b)
      then Some (Bus (now b + 1) (update_queue b) (subs b))
      else None
  end.

(** Runs a schedule; [None] when the schedule cannot happen. *)
Fixpoint run (sched : list action) (b : bus) : option bus :=
  match sched with
  | [] => Some b
  | a :: rest =>
      match step a b with
      | Some b' => run rest b'
      | None => None
      end
  end.

Definition init : bus := Bus 0 [] [].

(** The updates published by a schedule, in order. *)
Fixpoint published (sched : list action) : list json :=
  match sched with
  | [] => []
  | Put update :: rest => update :: published rest
  | _ :: rest => published rest
  end.

(** The updates published after the [i]-th connection was opened. *)
Fixpoint published_since (i : nat) (sched : list action) : list json :=
  match sched with
  | [] => []
  | Connect :: rest =>
      match i with
      | O => published rest
      | S i' => published_since i' rest
      end
  | _ :: rest => published_since i rest
  end.

(** The real updates among the frames of a consumer. *)
Fixpoint delivered (frames : list (Z * sse)) : list json :=
  match frames with
  | [] => []
  | (_, Data update) :: rest => update :: delivered rest
  | (_, Heartbeat) :: rest => delivered rest
  end.

(** What one action takes off the queue, and who takes it. *)
Definition dequeued (a : action) (b : bus) : list (nat * json) :=
  match a, update_queue b with
  | Wake i, update :: _ => [(i, update)]
  | _, _ => []
  end.

(** Who dequeued what, in the order of the dequeues, along a schedule. *)
Fixpoint dequeues (sched : list action) (b : bus) : list (nat * json) :=
  match sched with
  | [] => []
  | a :: rest =>
      match step a b with
      | Some b' => dequeued a b ++ dequeues rest b'
      | None => []
      end
  end.

(** The real updates consumer [i] has received so far. *)
Definition received (b : bus) (i : nat) : list json :=
  match subs b !! i with
  | Some s => delivered (yielded s)
  | None => []
  end.

Definition taken_by (i : nat) (log : list (nat * json)) : list json :=
  map snd (List.filter (fun e => Nat.eqb (fst e) i) log).

(** [m] heartbeats, one every [timeout] units after time [p]. *)
Definition beats (p : Z) (m : nat) : list (Z * sse) :=
  map (fun k => (p + timeout * Z.of_nat (S k), Heartbeat)) (seq 0 m).

(** Time of the last frame, or [t0] when there is none. *)
Definition last_time (t0 : Z) (frames : list (Z * sse)) : Z :=
  List.last (map fst frames) t0.

(** The cadence of a consumer's frames after time [p]: each frame comes at
    most [timeout] after the one before it, and a heartbeat exactly
    [timeout] after it. *)
Fixpoint paced (p : Z) (frames : list (Z * sse)) : Prop :=
  match frames with
  | [] => True
  | (t, m) :: rest =>
      p <= t <= p + timeout /\ (m = Heartbeat -> t = p + timeout) /\ paced t rest
  end.

(** A consumer in step with the clock [t]. *)
Definition in_step (t : Z) (s : subscriber) : Prop :=
  paced (since s) (yielded s)
  /\ deadline s = last_time (since s) (yielded s) + timeout
  /\ last_time (since s) (yielded s) <= t <= deadline s.

(** The two readings of a broadcast bus. [claimed_fan_out]: once the queue
    has drained, every consumer has received exactly the updates published
    since it connected, in order. [claimed_no_replay]: a consumer never
    receives an update that was published before it connected. *)
Definition claimed_fan_out : Prop :=
  forall sched b i s,
    run sched init = Some b -> subs b !! i = Some s -> update_queue b = [] ->
    delivered (yielded s) = published_since i sched.

Definition claimed_no_replay : Prop :=
  forall sched b i s update,
    run sched init = Some b -> subs b !! i = Some s ->
    In update (delivered (yielded s)) -> In update (published_since i sched).

End Stream.

(* ===================================================================== *)
(** ** The specification's wording of five properties *)
(* ===================================================================== *)

(** A Start request while the persisted state is running or stopping is
    refused and starts no thread. *)
Definition claimed_conflict_on_start : Prop :=
  forall wd d w status,
    persisted wd w = JObj status ->
    is_state "running" status || is_state "stopping" status = true ->
    http_status (fst (start_migration (JObj d) w)) <> 200
    /\ threads (snd (start_migration (JObj d) w)) = threads w.

(** Stop, like every other write, takes a record that satisfies the
    record invariant to one that satisfies it. *)
Definition claimed_stop_keeps_invariant : Prop :=
  forall wd w status,
    persisted wd w = JObj status ->
    record_invariant status = true ->
    exists status',
      persisted wd (snd (stop_migration wd w)) = JObj status'
      /\ record_invariant status' = true.

(** Every transfers list stored in the metrics document is answered with
    a success rate. *)
Definition claimed_rate_for_every_list : Prop :=
  forall wd w d ts,
    load_json_file (files w) (METRICS_FILE wd) JNull = JObj d ->
    dict_lookup "transfers" d = Some (JArr ts) ->
    exists rate,
      get_transfers wd w
      = Response 200
          (JObj [("transfers", JArr ts);
                 ("total_count", JNum (inject_Z (Z.of_nat (length ts))));
                 ("success_rate", JNum rate)]).

(** The source or target a request body carries, if any. *)
Definition body_field (k : string) (params : json) : option json :=
  match params with
  | JObj d => dict_lookup k d
  | _ => None
  end.

Definition missing_or_empty (v : option json) : Prop :=
  v = None \/ v = Some (JStr "").

(** A Start request whose body has no source or no target, or an empty
    one, is answered 400 and starts nothing. *)
Definition claimed_start_validation : Prop :=
  forall params w,
    missing_or_empty (body_field "source" params)
    \/ missing_or_empty (body_field "target" params) ->
    http_status (fst (start_migration params w)) = 400
    /\ snd (start_migration params w) = w.

(** Reading the State Store when the status file is absent gives
    [{state: idle}]. *)
Definition claimed_idle_default : Prop :=
  forall wd w,
    files w !! STATUS_FILE wd = None ->
    persisted wd w = JObj [("state", JStr "idle")].

(* ===================================================================== *)
(** ** Sample data *)
(* ===================================================================== *)

(** The acknowledgment of [POST /api/stop]. *)
Definition stopping_response : result :=
  Response 200 (JObj [("status", JStr "stopping");
                      ("message", JStr "Migration is being stopped")]).

Definition workspace : string := "/opt/storage-migration".

(** A finished run on disk: the record a completed migration leaves. *)
Definition completed_record : list (string * json) :=
  [("state", JStr "completed"); ("source", JStr "/mnt/old"); ("target", JStr "/mnt/new");
   ("start_time", JNum 100); ("end_time", JNum 160)].

Definition completed_world : world :=
  World {[ STATUS_FILE workspace := JsonFile (JObj completed_record) ]} [] [].

(** The two answers of [POST /api/start]. *)
Definition started_response : result :=
  Response 200 (JObj [("status", JStr "started"); ("message", JStr "Migration started")]).

Definition required_response : result :=
  Response 400 (JObj [("error", JStr "Source and target are required")]).

(** A migration in flight: its record on disk and its thread. *)
Definition running_record : list (string * json) :=
  [("state", JStr "running"); ("source", JStr "/mnt/old"); ("target", JStr "/mnt/new");
   ("start_time", JNum 100)].

Definition running_world : world :=
  World {[ STATUS_FILE workspace := JsonFile (JObj running_record) ]} []
        [(JStr "/mnt/old", JStr "/mnt/new")].

Definition start_request : list (string * json) :=
  [("source", JStr "/mnt/a"); ("target", JStr "/mnt/b")].

(** The transfers list of the success-rate example. *)
Definition sample_transfers : list json :=
  [JObj [("success", JBool true)]; JObj [("success", JBool false)];
   JObj [("success", JBool true)]].

Definition sample_metrics_world : world :=
  World {[ METRICS_FILE workspace := JsonFile (JObj [("transfers", JArr sample_transfers)]) ]}
        [] [].

(** A fresh installation: nothing on disk yet. *)
Definition empty_world : world := World ∅ [] [].

(** One progress event, as [run_migration] puts it on the queue. *)
Definition sample_update : json :=
  JObj [("type", JStr "progress"); ("message", JStr "copying"); ("timestamp", JNum 101)].

Definition update_1 : json :=
  JObj [("type", JStr "progress"); ("message", JStr "1 of 3"); ("timestamp", JNum 101)].
Definition update_2 : json :=
  JObj [("type", JStr "progress"); ("message", JStr "2 of 3"); ("timestamp", JNum 102)].
Definition update_3 : json :=
  JObj [("type", JStr "progress"); ("message", JStr "3 of 3"); ("timestamp", JNum 103)].

(** Two consumers, then three updates, two of them taken. *)
Definition shared_schedule : list Stream.action :=
  [Stream.Connect; Stream.Connect; Stream.Put update_1; Stream.Put update_2;
   Stream.Wake 1; Stream.Wake 0; Stream.Put update_3].

Definition shared_bus : Stream.bus :=
  Eval vm_compute in
    match Stream.run shared_schedule Stream.init with
    | Some b => b
    | None => Stream.init
    end.

(** One consumer left idle for 60 time units, taking its two timeouts. *)
Definition idle_schedule : list Stream.action :=
  ([Stream.Connect] ++ repeat Stream.Tick 30 ++ [Stream.Wake 0]
   ++ repeat Stream.Tick 30 ++ [Stream.Wake 0])%list.

Definition idle_bus : Stream.bus :=
  Eval vm_compute in
    match Stream.run idle_schedule Stream.init with
    | Some b => b
    | None => Stream.init
    end.

Definition idle_consumer : Stream.subscriber :=
  Stream.Subscriber 0 90 [(30, Stream.Heartbeat); (60, Stream.Heartbeat)].

(** A metrics document whose transfers list has an entry that is no record. *)
Definition odd_metrics_world : world :=
  World {[ METRICS_FILE workspace := JsonFile (JObj [("transfers", JArr [JNum 1])]) ]} [] [].

(** A status file that holds a list. *)
Definition list_status_world : world :=
  World {[ STATUS_FILE workspace := JsonFile (JArr []) ]} [] [].

(** Three updates published before anyone connects. *)
Definition early_schedule : list Stream.action :=
  [Stream.Put update_1; Stream.Put update_2; Stream.Tick; Stream.Put update_3].

Definition early_bus : Stream.bus :=
  Eval vm_compute in
    match Stream.run early_schedule Stream.init with
    | Some b => b
    | None => Stream.init
    end.

(* ===================================================================== *)
(** * Properties *)
(* ===================================================================== *)

(** ** Dicts *)

Lemma dict_lookup_set_eq (k : string) (v : json) (d : list (string * json)) :
  dict_lookup k (dict_set k v d) = Some v.
Proof.
  induction d as [|[k' v'] d IH]; simpl.
  - by rewrite String.eqb_refl.
  - destruct (String.eqb k k') eqn:E; simpl.
    + by rewrite String.eqb_refl.
    + by rewrite E.
Qed.

Lemma dict_lookup_set_ne (k k' : string) (v : json) (d : list (string * json)) :
  k <> k' -> dict_lookup k' (dict_set k v d) = dict_lookup k' d.
Proof.
  intros Hne. induction d as [|[k0 v0] d IH]; simpl.
  - destruct (String.eqb k' k) eqn:E; [|done].
    apply String.eqb_eq in E. congruence.
  - destruct (String.eqb k k0) eqn:E; simpl.
    + apply String.eqb_eq in E. subst k0.
      destruct (String.eqb k' k) eqn:E'; [|done].
      apply String.eqb_eq in E'. congruence.
    + by rewrite IH.
Qed.

Lemma dict_set_set (k : string) (v : json) (d : list (string * json)) :
  dict_set k v (dict_set k v d) = dict_set k v d.
Proof.
  induction d as [|[k' v'] d IH]; simpl.
  - by rewrite String.eqb_refl.
  - destruct (String.eqb k k') eqn:E; simpl.
    + by rewrite String.eqb_refl.
    + by rewrite E, IH.
Qed.

Lemma is_set_set_ne (k k' : string) (v : json) (d : list (string * json)) :
  k <> k' -> is_set k' (dict_set k v d) = is_set k' d.
Proof. intros Hne. unfold is_set. by rewrite dict_lookup_set_ne. Qed.

Lemma is_state_set (name s : string) (d : list (string * json)) :
  is_state name (dict_set "state" (JStr s) d) = String.eqb s name.
Proof. unfold is_state. by rewrite dict_lookup_set_eq. Qed.

(** ** Files *)

Lemma load_save (fs : gmap string file) (path : string) (data dflt : json) :
  load_json_file (save_json_file fs path data) path dflt = data.
Proof. unfold load_json_file, save_json_file. by rewrite lookup_insert_eq. Qed.

Lemma load_missing (fs : gmap string file) (path : string) :
  fs !! path = None \/ fs !! path = Some Unreadable ->
  load_json_file fs path JNull = JObj [].
Proof. unfold load_json_file. by intros [-> | ->]. Qed.

Lemma save_save (fs : gmap string file) (path : string) (d1 d2 : json) :
  save_json_file (save_json_file fs path d1) path d2 = save_json_file fs path d2.
Proof. unfold save_json_file. apply insert_insert_eq. Qed.

Lemma save_other (fs : gmap string file) (path path' : string) (data : json) :
  path <> path' -> save_json_file fs path data !! path' = fs !! path'.
Proof. intros Hne. unfold save_json_file. by rewrite lookup_insert_ne. Qed.

(** ** Rounding *)

Lemma rne_floor (s : Q) : Qfloor s <= rne s <= Qfloor s + 1.
Proof.
  unfold rne. cbv zeta.
  destruct (_ ?= _)%Q; try destruct (Z.even (Qfloor s)); lia.
Qed.

Lemma rne_Z (k : Z) : rne (inject_Z k) = k.
Proof.
  unfold rne. cbv zeta. rewrite Qfloor_Z.
  assert (E : (inject_Z k - inject_Z k ?= 1 # 2)%Q = Lt).
  { apply (proj1 (Qlt_alt _ _)). generalize (inject_Z k). intros a. lra. }
  by rewrite E.
Qed.

Lemma rne_mono (s t : Q) : (s <= t)%Q -> rne s <= rne t.
Proof.
  intros Hst. pose proof (Qfloor_resp_le _ _ Hst) as Hq.
  destruct (Z.eq_dec (Qfloor s) (Qfloor t)) as [E|NE].
  - unfold rne. cbv zeta. rewrite <- E.
    generalize (inject_Z (Qfloor s)). intros a.
    destruct (s - a ?= 1 # 2)%Q eqn:C1;
      destruct (t - a ?= 1 # 2)%Q eqn:C2;
      try (destruct (Z.even (Qfloor s)); lia); try lia.
    + apply (proj2 (Qeq_alt _ _)) in C1. apply (proj2 (Qlt_alt _ _)) in C2. lra.
    + apply (proj2 (Qgt_alt _ _)) in C1. apply (proj2 (Qeq_alt _ _)) in C2. lra.
    + apply (proj2 (Qgt_alt _ _)) in C1. apply (proj2 (Qlt_alt _ _)) in C2. lra.
  - pose proof (rne_floor s). pose proof (rne_floor t). lia.
Qed.

Lemma rne_le (s : Q) (k : Z) : (s <= inject_Z k)%Q -> rne s <= k.
Proof. intros H. rewrite <- (rne_Z k). by apply rne_mono. Qed.

Lemma rne_ge (s : Q) (k : Z) : (inject_Z k <= s)%Q -> k <= rne s.
Proof. intros H. rewrite <- (rne_Z k). by apply rne_mono. Qed.

Lemma inject_Z_pow_pos (c : Z) : 0 <= c -> (0 < inject_Z (2 ^ c))%Q.
Proof.
  intros Hc. change 0%Q with (inject_Z 0). rewrite <- Zlt_Qlt.
  apply Z.pow_pos_nonneg; lia.
Qed.

Lemma round64_pos_mono (x x' : Q) :
  (0 <= x)%Q -> (x <= x')%Q -> (round64_pos x <= round64_pos x')%Q.
Proof.
  intros H0 Hxx'. unfold round64_pos.
  set (P := inject_Z (2 ^ 1074)).
  assert (HP : (0 < P)%Q) by (apply inject_Z_pow_pos; lia).
  set (y := (x * P)%Q). set (y' := (x' * P)%Q).
  assert (Hy0 : (0 <= y)%Q) by (unfold y; nra).
  assert (Hyy' : (y <= y')%Q) by (unfold y, y'; nra).
  set (F := Qfloor y). set (F' := Qfloor y').
  assert (HF0 : 0 <= F).
  { unfold F. rewrite <- (Qfloor_Z 0). by apply Qfloor_resp_le. }
  assert (HFF' : F <= F') by (by apply Qfloor_resp_le).
  set (c := Z.max (Z.log2 F - 52) 0). set (c' := Z.max (Z.log2 F' - 52) 0).
  assert (Hcc' : c <= c').
  { pose proof (Z.log2_le_mono _ _ HFF'). unfold c, c'. lia. }
  assert (Hc0 : 0 <= c) by (unfold c; lia).
  set (m := rne (y / inject_Z (2 ^ c))). set (m' := rne (y' / inject_Z (2 ^ c'))).
  assert (Hmain : m * 2 ^ c <= m' * 2 ^ c').
  { destruct (Z.eq_dec c c') as [E|NE].
    - unfold m'. rewrite <- E. fold c.
      apply Z.mul_le_mono_nonneg_r; [apply Z.pow_nonneg; lia|].
      apply rne_mono.
      pose proof (inject_Z_pow_pos c Hc0) as Hpc.
      apply Qle_shift_div_l; [done|].
      unfold Qdiv. rewrite <- Qmult_assoc, (Qmult_comm (/ _)), Qmult_inv_r, Qmult_1_r; [done|].
      lra.
    - assert (Hlt : c + 1 <= c') by lia.
      assert (Hc'pos : 0 < c') by lia.
      assert (HlogF' : Z.log2 F' = c' + 52) by (unfold c' in *; lia).
      assert (HF'pos : 0 < F').
      { destruct (Z.le_gt_cases F' 0) as [Hle|]; [|done].
        rewrite (Z.log2_nonpos _ Hle) in HlogF'. lia. }
      assert (HF'lo : 2 ^ (c' + 52) <= F').
      { rewrite <- HlogF'. by apply Z.log2_spec. }
      assert (Hm'lo : 2 ^ 52 <= m').
      { apply rne_ge. pose proof (inject_Z_pow_pos c' ltac:(lia)) as Hpc.
        apply Qle_shift_div_l; [done|].
        rewrite <- inject_Z_mult, <- Z.pow_add_r by lia.
        apply Qle_trans with (inject_Z F'); [|apply Qfloor_le].
        rewrite <- Zle_Qle. by replace (52 + c') with (c' + 52) by lia. }
      assert (HFhi : F + 1 <= 2 ^ (c + 53)).
      { destruct (Z.eq_dec F 0) as [->|HFne].
        - assert (1 <= 2 ^ (c + 53)); [|lia].
          change 1 with (2 ^ 0). apply Z.pow_le_mono_r; lia.
        - assert (HFpos : 0 < F) by lia.
          destruct (Z.log2_spec F HFpos) as [_ Hhi].
          assert (2 ^ Z.succ (Z.log2 F) <= 2 ^ (c + 53)); [|lia].
          apply Z.pow_le_mono_r; [lia|]. unfold c. lia. }
      assert (Hmhi : m <= 2 ^ 53).
      { apply rne_le. pose proof (inject_Z_pow_pos c Hc0) as Hpc.
        apply Qle_shift_div_r; [done|].
        rewrite <- inject_Z_mult, <- Z.pow_add_r by lia.
        apply Qle_trans with (inject_Z (F + 1)).
        - apply Qlt_le_weak. apply Qlt_floor.
        - rewrite <- Zle_Qle. by replace (53 + c) with (c + 53) by lia. }
      apply Z.le_trans with (2 ^ 53 * 2 ^ c).
      + apply Z.mul_le_mono_nonneg_r; [apply Z.pow_nonneg; lia|done].
      + apply Z.le_trans with (2 ^ 52 * 2 ^ c').
        * rewrite <- !Z.pow_add_r by lia. apply Z.pow_le_mono_r; lia.
        * apply Z.mul_le_mono_nonneg_r; [apply Z.pow_nonneg; lia|done]. }
  apply Qle_shift_div_l; [done|].
  unfold Qdiv. rewrite <- Qmult_assoc, (Qmult_comm (/ _)), Qmult_inv_r, Qmult_1_r by lra.
  by rewrite <- Zle_Qle.
Qed.

Lemma round64_nonneg (x : Q) : (0 <= x)%Q -> round64 x = round64_pos x.
Proof. intros H. unfold round64. by rewrite (proj2 (Qle_bool_iff 0 x) H). Qed.

Lemma round64_mono (x x' : Q) :
  (0 <= x)%Q -> (x <= x')%Q -> (round64 x <= round64 x')%Q.
Proof.
  intros H0 H. rewrite !round64_nonneg by lra. by apply round64_pos_mono.
Qed.

Lemma round64_exact : (round64 0 == 0)%Q /\ (round64 1 == 1)%Q /\ (round64 100 == 100)%Q.
Proof. repeat split; by vm_compute. Qed.

Section DashboardFacts.

Variable wd : string.

(** ** Stop *)

Lemma stop_migration_dict (w : world) (status : list (string * json)) :
  persisted wd w = JObj status ->
  stop_migration wd w =
    (Response 200 (JObj [("status", JStr "stopping");
                         ("message", JStr "Migration is being stopped")]),
     with_files (save_json_file (files w) (STATUS_FILE wd)
                   (JObj (dict_set "state" (JStr "stopping") status))) w).
Proof. unfold persisted, stop_migration. by intros ->. Qed.

Lemma persisted_stop (w : world) (status : list (string * json)) :
  persisted wd w = JObj status ->
  persisted wd (snd (stop_migration wd w)) =
    JObj (dict_set "state" (JStr "stopping") status).
Proof.
  intros H. rewrite (stop_migration_dict _ _ H). unfold persisted. simpl.
  apply load_save.
Qed.

Lemma stop_stop (w : world) (status : list (string * json)) :
  persisted wd w = JObj status ->
  snd (stop_migration wd (snd (stop_migration wd w))) = snd (stop_migration wd w).
Proof.
  intros H. pose proof (persisted_stop _ _ H) as H'.
  rewrite (stop_migration_dict _ _ H'). rewrite (stop_migration_dict _ _ H).
  simpl. unfold with_files. simpl. by rewrite save_save, dict_set_set.
Qed.

Lemma stop_times_stopped (n : nat) (w : world) (status : list (string * json)) :
  persisted wd w = JObj status ->
  snd (stop_migration wd w) = w ->
  stop_times wd n w = (repeat stopping_response n, w).
Proof.
  intros Hp Hfix. induction n as [|n IH]; simpl; [done|].
  pose proof (stop_migration_dict _ _ Hp) as E.
  destruct (stop_migration wd w) as [r w'] eqn:Hs. simpl in Hfix. subst w'.
  rewrite IH. by inversion E.
Qed.

(** C9. Stop is idempotent: on every starting record, a Stop request
    followed by any number of further Stop requests answers "stopping"
    each time, never raises, and leaves the world exactly as the first
    Stop left it, with the persisted state equal to "stopping". *)
Theorem stop_idempotent (w : world) (status : list (string * json)) (n : nat) :
  persisted wd w = JObj status ->
  stop_times wd (S n) w = (repeat stopping_response (S n), snd (stop_migration wd w))
  /\ (exists status',
        persisted wd (snd (stop_times wd (S n) w)) = JObj status'
        /\ dict_lookup "state" status' = Some (JStr "stopping")).
Proof.
  intros Hp.
  assert (Hrun : stop_times wd (S n) w
                 = (repeat stopping_response (S n), snd (stop_migration wd w))).
  { change (stop_times wd (S n) w) with
      (let (r, w') := stop_migration wd w in
       let (rs, w'') := stop_times wd n w' in (r :: rs, w'')).
    pose proof (stop_migration_dict _ _ Hp) as E.
    destruct (stop_migration wd w) as [r w'] eqn:Hs.
    assert (Hw' : w' = snd (stop_migration wd w)) by (by rewrite Hs).
    rewrite (stop_times_stopped n w' (dict_set "state" (JStr "stopping") status)).
    - simpl. by inversion E.
    - rewrite Hw'. by apply persisted_stop.
    - rewrite Hw'. by apply (stop_stop w status). }
  split; [exact Hrun|].
  rewrite Hrun. simpl. exists (dict_set "state" (JStr "stopping") status). split.
  - by apply persisted_stop.
  - apply dict_lookup_set_eq.
Qed.

(** C10. Stop rewrites only the [state] field: every other field of the
    prior record (source, target, start_time, and an end_time or error
    left by an earlier run) reads the same afterwards, and no other file,
    the event queue or the thread list changes. *)
Theorem stop_changes_only_state (w : world) (status : list (string * json)) :
  persisted wd w = JObj status ->
  exists status',
    persisted wd (snd (stop_migration wd w)) = JObj status'
    /\ dict_lookup "state" status' = Some (JStr "stopping")
    /\ (forall k, k <> "state" -> dict_lookup k status' = dict_lookup k status)
    /\ (forall path, path <> STATUS_FILE wd ->
          files (snd (stop_migration wd w)) !! path = files w !! path)
    /\ update_queue (snd (stop_migration wd w)) = update_queue w
    /\ threads (snd (stop_migration wd w)) = threads w.
Proof.
  intros Hp. exists (dict_set "state" (JStr "stopping") status).
  split; [by apply persisted_stop|].
  split; [apply dict_lookup_set_eq|].
  split; [intros k Hk; apply dict_lookup_set_ne; congruence|].
  rewrite (stop_migration_dict _ _ Hp). simpl.
  split; [|done]. intros path Hne. apply save_other. congruence.
Qed.

(** ** Start *)

Lemma start_migration_rejects (d : list (string * json)) (w : world) :
  truthy (dict_get "source" JNull d) = false
  \/ truthy (dict_get "target" JNull d) = false ->
  start_migration (JObj d) w = (required_response, w).
Proof. unfold start_migration. by intros [-> | ->]; rewrite ?orb_true_r. Qed.

Lemma start_migration_accepts (d : list (string * json)) (w : world) :
  truthy (dict_get "source" JNull d) = true ->
  truthy (dict_get "target" JNull d) = true ->
  start_migration (JObj d) w
  = (started_response,
     thread_start (dict_get "source" JNull d) (dict_get "target" JNull d) w).
Proof. unfold start_migration. by intros -> ->. Qed.

(** C7, as the code has it. A start request whose body is a dict is
    answered 400, nothing being started, exactly when its source or its
    target is falsy: a missing key, [null], the empty string, and also [0],
    [false], [[]] and [{}]; when both are truthy it is acknowledged at once
    with "started" and one [run_migration] thread is handed its
    [(source, target)], nothing else in the world changing. A body that is
    not a dict ([null], a list, a string, a number) carries no source
    either, but the handler raises [AttributeError] on it, a 500, again
    starting nothing. *)
Theorem start_validates (params : json) (w : world) :
  (is_dict params = false ->
   start_migration params w = (Raised AttributeError, w)
   /\ http_status (fst (start_migration params w)) = 500)
  /\ (forall d, params = JObj d ->
        let source := dict_get "source" JNull d in
        let target := dict_get "target" JNull d in
        (truthy source = false \/ truthy target = false ->
         start_migration params w = (required_response, w)
         /\ http_status (fst (start_migration params w)) = 400)
        /\ (truthy source = true -> truthy target = true ->
            start_migration params w
            = (started_response,
               World (files w) (update_queue w) (threads w ++ [(source, target)])%list))
        /\ (dict_lookup "source" d = None \/ dict_lookup "source" d = Some JNull
            \/ dict_lookup "source" d = Some (JStr "") ->
            truthy source = false)
        /\ (dict_lookup "target" d = None \/ dict_lookup "target" d = Some JNull
            \/ dict_lookup "target" d = Some (JStr "") ->
            truthy target = false))
  /\ (http_status (fst (start_migration params w)) = 400 ->
      exists d, params = JObj d
                /\ (truthy (dict_get "source" JNull d) = false
                    \/ truthy (dict_get "target" JNull d) = false)).
Proof.
  split; [|split].
  - intros Hd. by destruct params.
  - intros d -> source target. split; [|split; [|split]].
    + intros H. by rewrite (start_migration_rejects d w H).
    + intros Hs Ht. by rewrite start_migration_accepts.
    + unfold source, dict_get. by intros [-> | [-> | ->]].
    + unfold target, dict_get. by intros [-> | [-> | ->]].
  - destruct params as [| b | q | s0 | items | d]; simpl; try done.
    intros H. exists d. split; [done|].
    destruct (truthy (dict_get "source" JNull d)); [|by left].
    destruct (truthy (dict_get "target" JNull d)); [|by right]. done.
Qed.

(** C2, as the code has it. The start handler never looks at the
    persisted state: whatever record is on disk (idle, completed, failed,
    but also running or stopping), a request with a truthy source and
    target is accepted, one more [run_migration] thread is started, and the
    record is left as it was; the handler's answer is the same in every
    world. *)
Theorem start_ignores_state (d : list (string * json)) (w : world) (status : json) :
  persisted wd w = status ->
  truthy (dict_get "source" JNull d) = true ->
  truthy (dict_get "target" JNull d) = true ->
  fst (start_migration (JObj d) w) = started_response
  /\ threads (snd (start_migration (JObj d) w))
     = (threads w ++ [(dict_get "source" JNull d, dict_get "target" JNull d)])%list
  /\ persisted wd (snd (start_migration (JObj d) w)) = status
  /\ (forall w', fst (start_migration (JObj d) w')
                 = fst (start_migration (JObj d) w)).
Proof.
  intros Hp Hs Ht.
  pose proof (fun w0 => start_migration_accepts d w0 Hs Ht) as E.
  rewrite (E w). split; [done|]. split; [done|]. split; [exact Hp|].
  intros w'. by rewrite (E w').
Qed.

(** ** The migration thread *)

Lemma persisted_save (w : world) (data : json) :
  persisted wd (with_files (save_json_file (files w) (STATUS_FILE wd) data) w) = data.
Proof. unfold persisted. simpl. apply load_save. Qed.

Lemma final_status_initial (source target : json) (t0 t1 : Q) (rc : Z) :
  final_status (initial_status source target t0) rc t1
  = [("state", JStr (if rc =? 0 then "completed" else "failed"));
     ("source", source); ("target", target);
     ("start_time", JNum t0); ("end_time", JNum t1)].
Proof. reflexivity. Qed.

Lemma run_migration_exit (source target : json) (t0 t1 : Q)
    (out : list (string * Q)) (rc : Z) (meanwhile : world -> world) (w : world) :
  persisted wd (run_migration wd source target t0 (Spawned out (Exit rc)) t1 meanwhile w)
  = JObj (final_status (initial_status source target t0) rc t1).
Proof. unfold run_migration. apply persisted_save. Qed.

(** Exit code 0: the run ends "completed", stamped with both clock
    readings, so [end_time >= start_time] whenever the clock did not go
    backwards. *)
Lemma run_migration_exit_zero (source target : json) (t0 t1 : Q)
    (out : list (string * Q)) (meanwhile : world -> world) (w : world) :
  persisted wd (run_migration wd source target t0 (Spawned out (Exit 0)) t1 meanwhile w)
  = JObj [("state", JStr "completed"); ("source", source); ("target", target);
          ("start_time", JNum t0); ("end_time", JNum t1)].
Proof. by rewrite run_migration_exit. Qed.

(** C3, the nonzero branch as the code runs it: the run ends "failed" with
    [end_time] stamped, and the record that is written carries no [error]
    field at all. *)
Theorem run_migration_exit_nonzero (source target : json) (t0 t1 : Q)
    (out : list (string * Q)) (rc : Z) (meanwhile : world -> world) (w : world) :
  rc <> 0 ->
  exists status,
    persisted wd (run_migration wd source target t0 (Spawned out (Exit rc)) t1 meanwhile w)
    = JObj status
    /\ status = [("state", JStr "failed"); ("source", source); ("target", target);
                 ("start_time", JNum t0); ("end_time", JNum t1)]
    /\ dict_lookup "error" status = None.
Proof.
  intros Hrc. eexists. split; [apply run_migration_exit|].
  rewrite final_status_initial.
  destruct (rc =? 0) eqn:E; [apply Z.eqb_eq in E; congruence|]. done.
Qed.

Lemma persisted_on_exception (e : string) (now : Q) (w : world)
    (status : list (string * json)) :
  persisted wd w = JObj status ->
  persisted wd (on_exception wd e now w)
  = JObj (dict_set "error" (JStr e) (dict_set "state" (JStr "failed") status)).
Proof.
  unfold persisted at 1. intros H. unfold on_exception. rewrite H.
  unfold persisted, queue_put. simpl. apply load_save.
Qed.

(** C4, as the code has it. The record written when a run starts, and the
    one written when the child exits with code 0, satisfy the record
    invariant; every exit of the child stamps [end_time] on a completed or
    failed record; the exception handler leaves a failed record with
    [error] set; and Stop keeps [end_time] and [error] exactly as it found
    them, so the record it writes satisfies the invariant precisely when
    the record it read had neither field. *)
Theorem record_invariant_by_write :
  (forall source target t0,
      record_invariant (initial_status source target t0) = true)
  /\ (forall source target t0 t1 out meanwhile w,
        exists status,
          persisted wd (run_migration wd source target t0 (Spawned out (Exit 0)) t1
                          meanwhile w) = JObj status
          /\ record_invariant status = true)
  /\ (forall source target t0 t1 out rc meanwhile w,
        exists status,
          persisted wd (run_migration wd source target t0 (Spawned out (Exit rc)) t1
                          meanwhile w) = JObj status
          /\ is_set "end_time" status = true
          /\ is_state "completed" status || is_state "failed" status = true)
  /\ (forall e now w status,
        persisted wd w = JObj status ->
        exists status',
          persisted wd (on_exception wd e now w) = JObj status'
          /\ is_state "failed" status' = true
          /\ is_set "error" status' = true)
  /\ (forall w status,
        persisted wd w = JObj status ->
        exists status',
          persisted wd (snd (stop_migration wd w)) = JObj status'
          /\ is_set "end_time" status' = is_set "end_time" status
          /\ is_set "error" status' = is_set "error" status
          /\ record_invariant status'
             = negb (is_set "end_time" status) && negb (is_set "error" status)).
Proof.
  split; [done|].
  split.
  { intros. eexists. split; [apply run_migration_exit_zero|done]. }
  split.
  { intros. eexists. split; [apply run_migration_exit|].
    rewrite final_status_initial. by destruct (rc =? 0). }
  split.
  { intros e now w status Hp. eexists. split; [by apply persisted_on_exception|].
    split.
    - unfold is_state. rewrite dict_lookup_set_ne by done.
      by rewrite dict_lookup_set_eq.
    - unfold is_set. by rewrite dict_lookup_set_eq. }
  intros w status Hp. eexists. split; [by apply persisted_stop|].
  assert (He : is_set "end_time" (dict_set "state" (JStr "stopping") status)
               = is_set "end_time" status) by (by apply is_set_set_ne).
  assert (Hr : is_set "error" (dict_set "state" (JStr "stopping") status)
               = is_set "error" status) by (by apply is_set_set_ne).
  split; [done|]. split; [done|].
  unfold record_invariant. rewrite He, Hr, !is_state_set. simpl.
  by destruct (is_set "end_time" status), (is_set "error" status).
Qed.

(** ** Transfers *)

Lemma count_success_dicts (ts : list json) :
  forallb is_dict ts = true ->
  count_success ts = inr (length (List.filter truthy_success ts)).
Proof.
  induction ts as [|t ts IH]; simpl; [done|].
  destruct t; simpl; try done. intros H. rewrite (IH H).
  by destruct (truthy _).
Qed.

Lemma count_success_fault (ts : list json) :
  forallb is_dict ts = false -> count_success ts = inl AttributeError.
Proof.
  induction ts as [|t ts IH]; simpl; [done|].
  destruct t; simpl; try done. intros H. by rewrite (IH H).
Qed.

Lemma get_transfers_list (w : world) (d : list (string * json)) (ts : list json) :
  load_json_file (files w) (METRICS_FILE wd) JNull = JObj d ->
  dict_get "transfers" (JArr []) d = JArr ts ->
  forallb is_dict ts = true ->
  get_transfers wd w
  = Response 200
      (JObj [("transfers", JArr ts);
             ("total_count", JNum (inject_Z (Z.of_nat (length ts))));
             ("success_rate",
              JNum (success_rate (length (List.filter truthy_success ts)) (length ts)))]).
Proof.
  intros Hm Ht Hd. unfold get_transfers. rewrite Hm. simpl. rewrite Ht. simpl.
  by rewrite (count_success_dicts _ Hd).
Qed.

Lemma get_transfers_entry_fault (w : world) (d : list (string * json)) (ts : list json) :
  load_json_file (files w) (METRICS_FILE wd) JNull = JObj d ->
  dict_lookup "transfers" d = Some (JArr ts) ->
  forallb is_dict ts = false ->
  get_transfers wd w = Raised AttributeError.
Proof.
  intros Hm Ht Hd. unfold get_transfers. rewrite Hm. simpl. unfold dict_get.
  rewrite Ht. simpl. by rewrite (count_success_fault _ Hd).
Qed.

(** *** The arithmetic of the rate *)

Lemma ratio_range (good total : nat) :
  (good <= total)%nat ->
  (0 <= inject_Z (Z.of_nat good) / inject_Z (Z.of_nat (Nat.max total 1)))%Q
  /\ (inject_Z (Z.of_nat good) / inject_Z (Z.of_nat (Nat.max total 1)) <= 1)%Q.
Proof.
  intros Hle.
  assert (Hpos : 0 < Z.of_nat (Nat.max total 1)) by lia.
  assert (Hg : Z.of_nat good <= Z.of_nat (Nat.max total 1)) by lia.
  assert (H0 : 0 <= Z.of_nat good) by lia.
  revert Hpos Hg H0. generalize (Z.of_nat (Nat.max total 1)) (Z.of_nat good).
  intros n g Hpos Hg H0. destruct n as [|p|p]; try lia.
  unfold Qle, Qdiv, Qmult, Qinv, inject_Z. simpl. split; nia.
Qed.

Lemma success_rate_range (good total : nat) :
  (good <= total)%nat ->
  (0 <= success_rate good total)%Q /\ (success_rate good total <= 100)%Q.
Proof.
  intros Hle. unfold success_rate.
  destruct (ratio_range good total Hle) as [Hq0 Hq1].
  destruct round64_exact as (E0 & E1 & E100).
  set (q := (inject_Z (Z.of_nat good) / inject_Z (Z.of_nat (Nat.max total 1)))%Q) in *.
  pose proof (round64_mono 0 q ltac:(lra) Hq0) as A0.
  pose proof (round64_mono q 1 Hq0 Hq1) as A1.
  rewrite E0 in A0. rewrite E1 in A1.
  assert (B0 : (0 <= round64 q * 100)%Q) by lra.
  assert (B1 : (round64 q * 100 <= 100)%Q) by lra.
  pose proof (round64_mono 0 _ ltac:(lra) B0) as C0.
  pose proof (round64_mono _ 100 B0 B1) as C1.
  rewrite E0 in C0. rewrite E100 in C1.
  by split.
Qed.

(** None of none, and two of three: the quotient [2/3] rounds to
    [6004799503160661 / 2^53] and its product with 100 to
    [2345624805922133 / 2^45], the double Python prints as
    [66.66666666666666]. *)
Lemma success_rate_samples :
  (success_rate 0 0 == 0)%Q
  /\ (success_rate 2 3 == 2345624805922133 # 35184372088832)%Q
  /\ (66665 # 1000 <= success_rate 2 3)%Q
  /\ (success_rate 2 3 < 66675 # 1000)%Q.
Proof.
  split; [by vm_compute|]. split; [by vm_compute|]. split.
  - apply Qle_bool_iff. by vm_compute.
  - apply (proj2 (Qlt_alt _ _)). by vm_compute.
Qed.

(** C6, as the code has it. For a transfers list read from the metrics
    document whose entries are all dicts, [GET /api/transfers] answers with
    the list, its length, and [success_rate] = (entries with a truthy
    success flag) / (entries) * 100 as Python computes it, the quotient and
    the product each rounded to binary64; on the three-entry example the
    rate is the double [66.66666666666666], which is 66.67 to the second
    decimal, and on the empty list it is 0, the divisor being
    [max(len, 1)]. A list with an entry that is not a dict
    gets no rate: the request fails with [AttributeError]. *)
Theorem transfers_success_rate (w : world) (d : list (string * json)) (ts : list json) :
  load_json_file (files w) (METRICS_FILE wd) JNull = JObj d ->
  dict_lookup "transfers" d = Some (JArr ts) ->
  (forallb is_dict ts = true ->
   exists rate : Q,
     get_transfers wd w
     = Response 200
         (JObj [("transfers", JArr ts);
                ("total_count", JNum (inject_Z (Z.of_nat (length ts))));
                ("success_rate", JNum rate)])
     /\ (ts <> [] ->
         rate = round64
                  (round64 (inject_Z (Z.of_nat (length (List.filter truthy_success ts)))
                            / inject_Z (Z.of_nat (length ts)))
                   * 100)%Q)
     /\ (ts = sample_transfers ->
         (rate == 2345624805922133 # 35184372088832)%Q
         /\ (66665 # 1000 <= rate)%Q /\ (rate < 66675 # 1000)%Q)
     /\ (ts = [] -> (rate == 0)%Q))
  /\ (forallb is_dict ts = false ->
      get_transfers wd w = Raised AttributeError
      /\ http_status (get_transfers wd w) = 500).
Proof.
  intros Hm Ht. split.
  - intros Hd.
    exists (success_rate (length (List.filter truthy_success ts)) (length ts)).
    split.
    { apply (get_transfers_list w d ts Hm); [|done]. unfold dict_get. by rewrite Ht. }
    split.
    { intros Hne. unfold success_rate.
      replace (Nat.max (length ts) 1) with (length ts); [done|].
      destruct ts; [done|]. simpl. lia. }
    split.
    + intros ->. destruct success_rate_samples as (_ & S1 & S2 & S3).
      change (length (List.filter truthy_success sample_transfers)) with 2%nat.
      change (length sample_transfers) with 3%nat.
      exact (conj S1 (conj S2 S3)).
    + intros ->. destruct success_rate_samples as (S0 & _). exact S0.
  - intros Hd. by rewrite (get_transfers_entry_fault w d ts Hm Ht Hd).
Qed.

(** ** Missing files *)

Lemma get_transfers_missing (w : world) :
  files w !! METRICS_FILE wd = None \/ files w !! METRICS_FILE wd = Some Unreadable ->
  get_transfers wd w
  = Response 200 (JObj [("transfers", JArr []); ("total_count", JNum 0);
                        ("success_rate", JNum (success_rate 0 0))]).
Proof.
  intros H. by apply (get_transfers_list w [] []); [apply load_missing| |].
Qed.

(** C8, as the code has it. Reading an absent or unreadable status file
    never raises and gives the empty document [{}]; the status and metrics
    endpoints answer 200 in every world, with [{}] standing for each missing
    document; and it is the start-up block that writes [{state: idle}] when
    the status file does not exist, after which a read returns it. *)
Theorem missing_file_defaults (w : world) :
  (files w !! STATUS_FILE wd = None \/ files w !! STATUS_FILE wd = Some Unreadable ->
   persisted wd w = JObj []
   /\ forall metrics now,
       get_status wd metrics now w
       = Response 200 (JObj [("status", JObj []); ("system_metrics", metrics);
                             ("timestamp", JStr now)]))
  /\ (forall metrics now, http_status (get_status wd metrics now w) = 200)
  /\ (forall current, http_status (get_metrics wd current w) = 200)
  /\ (files w !! METRICS_FILE wd = None ->
      files w !! PREDICTIONS_FILE wd = None ->
      forall current,
        get_metrics wd current w
        = Response 200 (JObj [("historical", JObj []); ("predictions", JObj []);
                              ("current", current)]))
  /\ (files w !! STATUS_FILE wd = None ->
      persisted wd (main_init wd w) = JObj [("state", JStr "idle")]).
Proof.
  split.
  { intros H. pose proof (load_missing _ _ H) as E. split; [exact E|].
    intros. unfold get_status. by rewrite E. }
  split; [done|]. split; [done|]. split.
  { intros Hm Hp current. unfold get_metrics.
    by rewrite !load_missing by auto. }
  intros H. unfold main_init. rewrite H. apply persisted_save.
Qed.

(** ** Paths *)

Lemma append_inj (a x y : string) : (a ++ x = a ++ y)%string -> x = y.
Proof.
  induction a as [|c a IH]; simpl; [done|]. intros H. apply IH. by inversion H.
Qed.

Lemma path_join_relative (a b : string) (c : ascii) (b' : string) :
  b = String c b' -> c <> "/"%char ->
  path_join a b
  = (a ++ (if String.eqb a "" || ends_with_slash a then "" else "/") ++ b)%string.
Proof.
  intros -> Hc. unfold path_join.
  assert (E : forall X (u v : X),
             match c with
             | "/"%char => u
             | _ => v
             end = v).
  { intros X u v.
    destruct c as [[] [] [] [] [] [] [] []]; try reflexivity. by destruct Hc. }
  rewrite E. by destruct (_ || _).
Qed.

Lemma path_join_inj (a b1 b2 : string) (c1 c2 : ascii) (r1 r2 : string) :
  b1 = String c1 r1 -> c1 <> "/"%char ->
  b2 = String c2 r2 -> c2 <> "/"%char ->
  path_join a b1 = path_join a b2 -> b1 = b2.
Proof.
  intros H1 Hc1 H2 Hc2.
  rewrite (path_join_relative a b1 c1 r1 H1 Hc1), (path_join_relative a b2 c2 r2 H2 Hc2).
  intros H. apply append_inj in H. by apply append_inj in H.
Qed.

Lemma paths_distinct :
  STATUS_FILE wd <> METRICS_FILE wd
  /\ STATUS_FILE wd <> PREDICTIONS_FILE wd
  /\ STATUS_FILE wd <> config_file wd
  /\ METRICS_FILE wd <> PREDICTIONS_FILE wd
  /\ METRICS_FILE wd <> config_file wd
  /\ PREDICTIONS_FILE wd <> config_file wd.
Proof.
  unfold STATUS_FILE, METRICS_FILE, PREDICTIONS_FILE, config_file.
  repeat split; intros H;
    eapply path_join_inj in H; try reflexivity; try discriminate.
Qed.

(** X2. Whatever [WORKSPACE_DIR] is, the status, metrics, predictions and
    configuration documents live at four different paths, so a save of one
    never changes what a load of another returns. *)
Theorem document_paths_distinct (fs : gmap string file) (data dflt : json) :
  let paths := [STATUS_FILE wd; METRICS_FILE wd; PREDICTIONS_FILE wd; config_file wd] in
  NoDup paths
  /\ forall p q, In p paths -> In q paths -> p <> q ->
       load_json_file (save_json_file fs p data) q dflt = load_json_file fs q dflt.
Proof.
  destruct paths_distinct as (H1 & H2 & H3 & H4 & H5 & H6).
  split.
  - repeat constructor; rewrite ?list_elem_of_In; simpl; intuition congruence.
  - intros p q _ _ Hne. unfold load_json_file. by rewrite save_other.
Qed.

(** ** Configuration *)

(** X3. The configuration document round-trips verbatim: after a POST, a
    GET answers 200 with exactly the posted body, whatever JSON value it is
    ([null] included) and whatever was stored before; the POST leaves the
    status record, the event queue and the threads as they were. *)
Theorem config_round_trip (body : json) (w : world) :
  fst (handle_config wd GET JNull (snd (handle_config wd POST body w)))
  = Response 200 body
  /\ snd (handle_config wd GET JNull (snd (handle_config wd POST body w)))
     = snd (handle_config wd POST body w)
  /\ persisted wd (snd (handle_config wd POST body w)) = persisted wd w
  /\ update_queue (snd (handle_config wd POST body w)) = update_queue w
  /\ threads (snd (handle_config wd POST body w)) = threads w.
Proof.
  simpl. rewrite load_save. split; [done|]. split; [done|]. split; [|done].
  unfold persisted, load_json_file. simpl. rewrite save_other; [done|].
  destruct paths_distinct as (_ & _ & H & _). congruence.
Qed.

(** ** What the status writers leave alone *)

Lemma files_monitor_progress (stdout : list (string * Q)) (w : world) :
  files (monitor_progress stdout w) = files w
  /\ threads (monitor_progress stdout w) = threads w.
Proof.
  revert w. induction stdout as [|[output now] rest IH]; intros w; [done|].
  simpl. destruct (IH (if negb (String.eqb output "")
                       then queue_put (progress_event output now) w else w))
    as [Hf Ht].
  unfold progress_event in *. rewrite Hf, Ht. by destruct (negb _).
Qed.

Lemma files_on_exception (e : string) (now : Q) (w : world) (path : string) :
  path <> STATUS_FILE wd ->
  files (on_exception wd e now w) !! path = files w !! path.
Proof.
  intros Hne. unfold on_exception.
  destruct (load_json_file _ _ _); try done. simpl. apply save_other. congruence.
Qed.

Lemma files_stop_migration (w : world) (path : string) :
  path <> STATUS_FILE wd ->
  files (snd (stop_migration wd w)) !! path = files w !! path.
Proof.
  intros Hne. unfold stop_migration.
  destruct (load_json_file _ _ _); try done. simpl. apply save_other. congruence.
Qed.

Lemma files_run_migration (source target : json) (t0 t1 : Q) (p : process)
    (meanwhile : world -> world) (w : world) (path : string) :
  path <> STATUS_FILE wd ->
  files (run_migration wd source target t0 p t1 meanwhile w) !! path
  = files (meanwhile (with_files (save_json_file (files w) (STATUS_FILE wd)
                                    (JObj (initial_status source target t0))) w))
      !! path.
Proof.
  intros Hne. unfold run_migration.
  set (w1 := meanwhile _).
  destruct p as [e|stdout [rc|e]].
  - by rewrite files_on_exception.
  - simpl. rewrite save_other by congruence.
    by destruct (files_monitor_progress stdout w1) as [-> _].
  - rewrite files_on_exception by done.
    by destruct (files_monitor_progress stdout w1) as [-> _].
Qed.

Lemma same_documents (w w' : world) :
  (forall path, path <> STATUS_FILE wd -> files w' !! path = files w !! path) ->
  (forall current, get_metrics wd current w' = get_metrics wd current w)
  /\ get_transfers wd w' = get_transfers wd w
  /\ fst (handle_config wd GET JNull w') = fst (handle_config wd GET JNull w).
Proof.
  intros H. destruct paths_distinct as (Hm & Hp & Hc & _).
  assert (Hl : forall path, path <> STATUS_FILE wd ->
                 load_json_file (files w') path JNull = load_json_file (files w) path JNull).
  { intros path Hne. unfold load_json_file. by rewrite H. }
  unfold get_metrics, get_transfers, handle_config. simpl.
  rewrite !Hl by congruence. done.
Qed.

(** X4. Stop writes no document other than the status record: every other
    path keeps its file, so the metrics, transfers and configuration
    endpoints answer after a Stop exactly as before it. The migration
    thread writes no other document either: whatever the child prints and
    however it ends, after the run every other path holds what the child
    process and the other threads left there, and the three endpoints
    answer accordingly. *)
Theorem status_writers_leave_documents (w : world) :
  (forall path, path <> STATUS_FILE wd ->
     files (snd (stop_migration wd w)) !! path = files w !! path)
  /\ (forall current,
        get_metrics wd current (snd (stop_migration wd w)) = get_metrics wd current w)
  /\ get_transfers wd (snd (stop_migration wd w)) = get_transfers wd w
  /\ fst (handle_config wd GET JNull (snd (stop_migration wd w)))
     = fst (handle_config wd GET JNull w)
  /\ (forall source target t0 p t1 meanwhile,
        let started := with_files (save_json_file (files w) (STATUS_FILE wd)
                                     (JObj (initial_status source target t0))) w in
        let w' := run_migration wd source target t0 p t1 meanwhile w in
        (forall path, path <> STATUS_FILE wd ->
           files w' !! path = files (meanwhile started) !! path)
        /\ (forall current,
              get_metrics wd current w' = get_metrics wd current (meanwhile started))
        /\ get_transfers wd w' = get_transfers wd (meanwhile started)
        /\ fst (handle_config wd GET JNull w')
           = fst (handle_config wd GET JNull (meanwhile started))).
Proof.
  split; [intros; by apply files_stop_migration|].
  destruct (same_documents w (snd (stop_migration wd w))) as (H1 & H2 & H3);
    [intros; by apply files_stop_migration|].
  split; [done|]. split; [done|]. split; [done|].
  intros source target t0 p t1 meanwhile started w'.
  split; [intros; by apply files_run_migration|].
  apply same_documents. intros. by apply files_run_migration.
Qed.

(** ** Transfers: bounds and faults *)

Lemma filter_length_le {A : Type} (f : A -> bool) (l : list A) :
  (length (List.filter f l) <= length l)%nat.
Proof. induction l as [|x l IH]; simpl; [lia|]. destruct (f x); simpl; lia. Qed.

(** X5. For a transfers list of records, [total_count] is the length of the
    list and [success_rate] is a percentage: it lies between 0 and 100, and
    a metrics document without a [transfers] key answers like the empty
    list. *)
Theorem transfers_rate_is_a_percentage (w : world) (d : list (string * json))
    (ts : list json) :
  load_json_file (files w) (METRICS_FILE wd) JNull = JObj d ->
  dict_lookup "transfers" d = Some (JArr ts) \/ (dict_lookup "transfers" d = None /\ ts = []) ->
  forallb is_dict ts = true ->
  exists rate : Q,
    get_transfers wd w
    = Response 200
        (JObj [("transfers", JArr ts);
               ("total_count", JNum (inject_Z (Z.of_nat (length ts))));
               ("success_rate", JNum rate)])
    /\ (0 <= rate)%Q /\ (rate <= 100)%Q.
Proof.
  intros Hm Ht Hd. eexists. split.
  - apply (get_transfers_list w d ts Hm); [|done]. unfold dict_get.
    destruct Ht as [-> | [-> ->]]; done.
  - apply success_rate_range, filter_length_le.
Qed.

(** X6. [GET /api/transfers] fails with a 500 on ill-shaped metrics: an
    [AttributeError] when the stored document is not a dict or when some
    entry of the transfers list is not a dict, a [TypeError] when the
    [transfers] value is [null], a boolean or a number. *)
Theorem transfers_faults (w : world) :
  (forall doc,
      load_json_file (files w) (METRICS_FILE wd) JNull = doc ->
      is_dict doc = false ->
      get_transfers wd w = Raised AttributeError)
  /\ (forall d ts,
        load_json_file (files w) (METRICS_FILE wd) JNull = JObj d ->
        dict_lookup "transfers" d = Some (JArr ts) ->
        forallb is_dict ts = false ->
        get_transfers wd w = Raised AttributeError)
  /\ (forall d v,
        load_json_file (files w) (METRICS_FILE wd) JNull = JObj d ->
        dict_lookup "transfers" d = Some v ->
        (v = JNull \/ (exists b, v = JBool b) \/ (exists q, v = JNum q)) ->
        get_transfers wd w = Raised TypeError).
Proof.
  unfold get_transfers. split; [|split].
  - intros doc -> Hd. by destruct doc.
  - intros d ts -> Ht Hd. simpl. unfold dict_get. rewrite Ht. simpl.
    by rewrite (count_success_fault _ Hd).
  - intros d v -> Hv Hk. simpl. unfold dict_get. rewrite Hv.
    by destruct Hk as [-> | [[b ->] | [q ->]]].
Qed.

(** ** Start and Stop on odd input *)

(** X7. [POST /api/start] never writes a file or the event queue and
    starts at most one thread; it starts one exactly when the body is a dict
    whose source and target are both truthy, so [0], [false], [[]], [{}] and
    [null] are refused like a missing key; a body that is not a dict raises
    [AttributeError]; whenever the answer is not 200 the world is unchanged,
    and no thread ever gets a falsy argument. *)
Theorem start_migration_safe (params : json) (w : world) :
  files (snd (start_migration params w)) = files w
  /\ update_queue (snd (start_migration params w)) = update_queue w
  /\ (is_dict params = false -> start_migration params w = (Raised AttributeError, w))
  /\ (forall d, params = JObj d ->
        if truthy (dict_get "source" JNull d) && truthy (dict_get "target" JNull d)
        then start_migration params w
             = (started_response,
                thread_start (dict_get "source" JNull d) (dict_get "target" JNull d) w)
        else start_migration params w = (required_response, w))
  /\ (http_status (fst (start_migration params w)) <> 200 ->
      snd (start_migration params w) = w)
  /\ (forallb truthy_args (threads w) = true ->
      forallb truthy_args (threads (snd (start_migration params w))) = true).
Proof.
  destruct params as [| b | q | s | items | d]; simpl;
    try (repeat split; try done; by intros d [=]).
  destruct (truthy (dict_get "source" JNull d)) eqn:Hs;
    destruct (truthy (dict_get "target" JNull d)) eqn:Ht; simpl;
    (split; [done|]); (split; [done|]); (split; [done|]);
    (split; [intros d' [= <-]; by rewrite Hs, Ht|]); (split; [done|]); try done.
  intros Hall. rewrite forallb_app, Hall. unfold truthy_args. simpl. by rewrite Hs, Ht.
Qed.

(** X8. [POST /api/stop] on odd records: when the status file holds a JSON
    value that is not a dict the assignment raises [TypeError] and nothing
    is written; when there is no status file Stop creates it with the
    single field [state = "stopping"]. *)
Theorem stop_on_odd_records (w : world) :
  (forall doc,
      files w !! STATUS_FILE wd = Some (JsonFile doc) ->
      is_dict doc = false ->
      stop_migration wd w = (Raised TypeError, w))
  /\ (files w !! STATUS_FILE wd = None ->
      fst (stop_migration wd w) = stopping_response
      /\ files (snd (stop_migration wd w)) !! STATUS_FILE wd
         = Some (JsonFile (JObj [("state", JStr "stopping")]))).
Proof.
  split.
  - intros doc Hf Hd. unfold stop_migration, load_json_file. rewrite Hf.
    by destruct doc.
  - intros H. pose proof (load_missing _ _ (or_introl H)) as E.
    rewrite (stop_migration_dict w [] E). simpl. split; [done|].
    unfold save_json_file. apply lookup_insert_eq.
Qed.

(** ** What a run puts on the queue *)

Lemma queue_monitor_progress (stdout : list (string * Q)) (w : world) :
  update_queue (monitor_progress stdout w)
  = (update_queue w
     ++ map (fun line => progress_event (fst line) (snd line))
            (List.filter nonempty_line stdout))%list.
Proof.
  revert w. induction stdout as [|[output now] rest IH]; intros w; simpl.
  - by rewrite app_nil_r.
  - rewrite IH. unfold nonempty_line at 2. simpl.
    destruct (negb (String.eqb output "")); simpl; [|done].
    by rewrite <- app_assoc.
Qed.

(** X9. The monitoring loop appends to the queue exactly one progress
    event per non-empty line read, in the order the lines were read, each
    with the stripped line and the clock reading taken for it; empty reads
    add nothing, nothing already queued is removed or reordered, and no
    file is written. *)
Theorem monitor_progress_queue (stdout : list (string * Q)) (w : world) :
  update_queue (monitor_progress stdout w)
  = (update_queue w
     ++ map (fun line => progress_event (fst line) (snd line))
            (List.filter nonempty_line stdout))%list
  /\ length (update_queue (monitor_progress stdout w))
     = (length (update_queue w) + length (List.filter nonempty_line stdout))%nat
  /\ files (monitor_progress stdout w) = files w
  /\ threads (monitor_progress stdout w) = threads w.
Proof.
  split; [apply queue_monitor_progress|].
  split; [by rewrite queue_monitor_progress, length_app, length_map|].
  apply files_monitor_progress.
Qed.

(** X10. When the child cannot be spawned, or reading its output raises,
    an undisturbed run ends with the record [{state: failed, source, target,
    start_time, error}], the error being the exception text and [end_time]
    never being set, and with exactly one error event queued after the
    progress events of the lines read so far. *)
Theorem run_migration_on_exception (source target : json) (t0 t1 : Q) (e : string)
    (p : process) (stdout : list (string * Q)) (w : world) :
  p = PopenRaises e /\ stdout = [] \/ p = Spawned stdout (ReadRaises e) ->
  persisted wd (run_migration wd source target t0 p t1 (fun w => w) w)
  = JObj [("state", JStr "failed"); ("source", source); ("target", target);
          ("start_time", JNum t0); ("error", JStr e)]
  /\ update_queue (run_migration wd source target t0 p t1 (fun w => w) w)
     = (update_queue w
        ++ map (fun line => progress_event (fst line) (snd line))
               (List.filter nonempty_line stdout)
        ++ [error_event e t1])%list
  /\ threads (run_migration wd source target t0 p t1 (fun w => w) w) = threads w.
Proof.
  set (w1 := with_files (save_json_file (files w) (STATUS_FILE wd)
                           (JObj (initial_status source target t0))) w).
  assert (Hp1 : forall stdout', persisted wd (monitor_progress stdout' w1)
                = JObj (initial_status source target t0)).
  { intros stdout'. unfold persisted.
    destruct (files_monitor_progress stdout' w1) as [-> _]. apply persisted_save. }
  assert (Hexc : forall w2,
             persisted wd w2 = JObj (initial_status source target t0) ->
             persisted wd (on_exception wd e t1 w2)
             = JObj [("state", JStr "failed"); ("source", source); ("target", target);
                     ("start_time", JNum t0); ("error", JStr e)]
             /\ update_queue (on_exception wd e t1 w2)
                = (update_queue w2 ++ [error_event e t1])%list
             /\ threads (on_exception wd e t1 w2) = threads w2).
  { intros w2 H2. split; [by rewrite (persisted_on_exception _ _ _ _ H2)|].
    unfold on_exception. unfold persisted in H2. by rewrite H2. }
  intros [[-> ->] | ->]; unfold run_migration; fold w1.
  - destruct (Hexc w1 (Hp1 [])) as (H1 & H2 & H3). by rewrite H1, H2, H3.
  - destruct (Hexc (monitor_progress stdout w1) (Hp1 stdout)) as (H1 & H2 & H3).
    rewrite H1, H2, H3, queue_monitor_progress.
    destruct (files_monitor_progress stdout w1) as [_ ->].
    by rewrite <- app_assoc.
Qed.

(** X11. A Stop that arrives while the child is running is lost when the
    child exits: Stop does set the persisted state to "stopping", but the
    final write of the run replaces the whole record with its own copy, so
    the state ends "completed" or "failed" by the exit code, and the run
    queues its progress events and no error event. *)
Theorem exit_overwrites_stop (source target : json) (t0 t1 : Q)
    (stdout : list (string * Q)) (rc : Z) (w : world) :
  let started := with_files (save_json_file (files w) (STATUS_FILE wd)
                               (JObj (initial_status source target t0))) w in
  let stop := fun w => snd (stop_migration wd w) in
  let final := run_migration wd source target t0 (Spawned stdout (Exit rc)) t1 stop w in
  persisted wd (stop started)
  = JObj [("state", JStr "stopping"); ("source", source); ("target", target);
          ("start_time", JNum t0)]
  /\ persisted wd final
     = JObj [("state", JStr (if rc =? 0 then "completed" else "failed"));
             ("source", source); ("target", target);
             ("start_time", JNum t0); ("end_time", JNum t1)]
  /\ update_queue final
     = (update_queue w
        ++ map (fun line => progress_event (fst line) (snd line))
               (List.filter nonempty_line stdout))%list.
Proof.
  intros started stop final.
  assert (Hs : persisted wd started = JObj (initial_status source target t0))
    by apply persisted_save.
  split; [unfold stop; by rewrite (persisted_stop _ _ Hs)|].
  split; [unfold final; by rewrite run_migration_exit|].
  unfold final, run_migration. fold started. simpl.
  rewrite queue_monitor_progress. unfold stop.
  by rewrite (stop_migration_dict _ _ Hs).
Qed.

(** ** Start-up *)

(** X12. Start-up never resets the job record: when a status file exists,
    readable or not, the world is left exactly as it is (a record left at
    "running" by a server that died still reads "running"); when none
    exists the idle record is created and nothing else changes; running the
    block twice is the same as running it once. *)
Theorem main_init_keeps_record (w : world) :
  (forall f, files w !! STATUS_FILE wd = Some f -> main_init wd w = w)
  /\ (files w !! STATUS_FILE wd = None ->
      files (main_init wd w) = <[STATUS_FILE wd := JsonFile (JObj [("state", JStr "idle")])]> (files w)
      /\ update_queue (main_init wd w) = update_queue w
      /\ threads (main_init wd w) = threads w)
  /\ main_init wd (main_init wd w) = main_init wd w.
Proof.
  unfold main_init. split; [by intros f ->|]. split; [by intros ->|].
  destruct (files w !! STATUS_FILE wd) eqn:E; [by rewrite E|].
  simpl. unfold save_json_file. by rewrite lookup_insert_eq.
Qed.

(** ** From the request to the status page *)

(** X16. End to end: the thread an accepted Start request starts is handed
    the request's own source and target, and once that run has exited with
    code 0 (whatever happened meanwhile) [GET /api/status] answers 200 with
    the record [{state: completed, source, target, start_time, end_time}]
    carrying those two values and the two clock readings of the run. *)
Theorem start_run_status (d : list (string * json)) (w : world) (t0 t1 : Q)
    (stdout : list (string * Q)) (meanwhile : world -> world)
    (metrics : json) (now : string) :
  truthy (dict_get "source" JNull d) = true ->
  truthy (dict_get "target" JNull d) = true ->
  exists source target,
    threads (snd (start_migration (JObj d) w)) = (threads w ++ [(source, target)])%list
    /\ get_status wd metrics now
         (run_migration wd source target t0 (Spawned stdout (Exit 0)) t1 meanwhile
            (snd (start_migration (JObj d) w)))
       = Response 200
           (JObj [("status",
                   JObj [("state", JStr "completed");
                         ("source", dict_get "source" JNull d);
                         ("target", dict_get "target" JNull d);
                         ("start_time", JNum t0); ("end_time", JNum t1)]);
                  ("system_metrics", metrics);
                  ("timestamp", JStr now)]).
Proof.
  intros Hs Ht. exists (dict_get "source" JNull d), (dict_get "target" JNull d).
  rewrite start_migration_accepts by done. cbn [snd]. split; [done|].
  unfold get_status.
  pose proof (run_migration_exit_zero (dict_get "source" JNull d)
                (dict_get "target" JNull d) t0 t1 stdout meanwhile
                (thread_start (dict_get "source" JNull d) (dict_get "target" JNull d) w))
    as E.
  unfold persisted in E. by rewrite E.
Qed.

End DashboardFacts.

(* ===================================================================== *)
(** ** The event stream *)
(* ===================================================================== *)

Section StreamFacts.

Import Stream.

(** *** Frames *)

Lemma delivered_app (l1 l2 : list (Z * sse)) :
  delivered (l1 ++ l2) = (delivered l1 ++ delivered l2)%list.
Proof.
  induction l1 as [|[t [u|]] l1 IH]; simpl; [done| |done].
  by rewrite IH.
Qed.

Lemma last_time_snoc (p t : Z) (m : sse) (l : list (Z * sse)) :
  last_time p (l ++ [(t, m)]) = t.
Proof. unfold last_time. rewrite map_app. simpl. apply last_last. Qed.

Lemma last_cons_default {A : Type} (l : list A) (a b : A) :
  List.last (a :: l) b = List.last l a.
Proof.
  revert a b. induction l as [|x l IH]; intros a b; [done|].
  change (List.last (a :: x :: l) b) with (List.last (x :: l) b).
  by rewrite (IH x b), (IH x a).
Qed.

Lemma last_time_cons (p t : Z) (m : sse) (l : list (Z * sse)) :
  last_time p ((t, m) :: l) = last_time t l.
Proof. unfold last_time. simpl. apply last_cons_default. Qed.

Lemma paced_snoc (p t : Z) (m : sse) (l : list (Z * sse)) :
  paced p l ->
  last_time p l <= t <= last_time p l + timeout ->
  (m = Heartbeat -> t = last_time p l + timeout) ->
  paced p (l ++ [(t, m)]).
Proof.
  revert p. induction l as [|[t0 m0] l IH]; intros p Hp Ht Hm; simpl.
  - unfold last_time in *. simpl in *. auto.
  - destruct Hp as (H1 & H2 & H3). rewrite last_time_cons in Ht, Hm. auto.
Qed.

Lemma paced_app_inv (p : Z) (l1 l2 : list (Z * sse)) :
  paced p (l1 ++ l2) -> paced (last_time p l1) l2.
Proof.
  revert p. induction l1 as [|[t0 m0] l1 IH]; intros p Hp; [done|].
  rewrite last_time_cons. apply IH. by destruct Hp as (_ & _ & Hp).
Qed.

Lemma beats_S (p : Z) (m : nat) :
  beats p (S m) = (p + timeout, Heartbeat) :: beats (p + timeout) m.
Proof.
  unfold beats. change (seq 0 (S m)) with (0%nat :: seq 1 m).
  rewrite <- List.seq_shift. cbn [map]. rewrite List.map_map.
  replace (p + timeout * Z.of_nat 1) with (p + timeout) by (unfold timeout; lia).
  f_equal. apply map_ext. intros k. f_equal. unfold timeout. lia.
Qed.

Lemma paced_heartbeats (p : Z) (hs post : list (Z * sse)) :
  paced p (hs ++ post) ->
  Forall (fun f => snd f = Heartbeat) hs ->
  hs = beats p (length hs).
Proof.
  revert p. induction hs as [|[t m] hs IH]; intros p Hp Hh; [done|].
  inversion Hh as [|? ? Hm Hh']; subst. simpl in Hm. subst m.
  destruct Hp as (_ & Ht & Hp). specialize (Ht eq_refl). subst t.
  simpl length. rewrite beats_S. f_equal. by apply IH.
Qed.

(** *** The cadence invariant *)

Lemma generate_in_step (t : Z) (q q' : list json) (s s' : subscriber) :
  generate t q s = Some (q', s') -> in_step t s -> in_step t s'.
Proof.
  unfold generate, queue_get, in_step. intros Hg (Hp & Hd & Hl).
  destruct q as [|update rest].
  - destruct (deadline s <=? t) eqn:E; [|done]. apply Z.leb_le in E.
    inversion Hg; subst; clear Hg. simpl. rewrite last_time_snoc.
    split; [apply paced_snoc; [done|lia|lia]|]. unfold timeout. lia.
  - inversion Hg; subst; clear Hg. simpl. rewrite last_time_snoc.
    split; [apply paced_snoc; [done|lia|done]|]. unfold timeout. lia.
Qed.

Lemma blocked_waits (t : Z) (q : list json) (s : subscriber) :
  blocked t q s = true -> q = [] /\ t < deadline s.
Proof.
  unfold blocked, generate, queue_get. destruct q; [|done].
  destruct (deadline s <=? t) eqn:E; [done|]. apply Z.leb_gt in E. done.
Qed.

Lemma step_in_step (a : action) (b b' : bus) :
  step a b = Some b' ->
  Forall (in_step (now b)) (subs b) -> Forall (in_step (now b')) (subs b').
Proof.
  intros Hs Hall. destruct a as [update| |i|]; simpl in Hs.
  - by inversion Hs.
  - inversion Hs; subst; clear Hs. simpl. apply Forall_app. split; [done|].
    constructor; [|done]. unfold in_step, last_time, timeout. simpl.
    repeat split; lia.
  - destruct (subs b !! i) as [s|] eqn:Hi; [|done].
    destruct (generate (now b) (update_queue b) s) as [[q s']|] eqn:Hg; [|done].
    inversion Hs; subst; clear Hs. simpl. apply Forall_insert; [done|].
    apply (generate_in_step _ _ _ _ _ Hg).
    by apply (Forall_lookup_1 _ _ _ _ Hall Hi).
  - destruct (forallb _ _) eqn:Hb; [|done]. inversion Hs; subst; clear Hs. simpl.
    rewrite List.forallb_forall in Hb. apply List.Forall_forall. intros s Hin.
    rewrite List.Forall_forall in Hall. specialize (Hall s Hin).
    destruct (blocked_waits _ _ _ (Hb s Hin)) as [_ Hlt].
    destruct Hall as (Hp & Hd & Hl). unfold in_step. simpl.
    split; [done|]. lia.
Qed.

Lemma run_in_step (sched : list action) (b b' : bus) :
  run sched b = Some b' ->
  Forall (in_step (now b)) (subs b) -> Forall (in_step (now b')) (subs b').
Proof.
  revert b. induction sched as [|a sched IH]; intros b Hr Hall; simpl in Hr.
  - by inversion Hr; subst.
  - destruct (step a b) as [b1|] eqn:Hs; [|done].
    apply (IH b1 Hr). by apply (step_in_step a b).
Qed.

Lemma reachable_in_step (sched : list action) (b : bus) (i : nat) (s : subscriber) :
  run sched init = Some b -> subs b !! i = Some s -> in_step (now b) s.
Proof.
  intros Hr Hi. assert (Hall : Forall (in_step (now b)) (subs b)).
  { apply (run_in_step sched init b Hr). constructor. }
  by apply (Forall_lookup_1 _ _ _ _ Hall Hi).
Qed.

(** What consumer [i] yields when its [get] returns or times out. *)
Lemma wake_frame (b b' : bus) (i : nat) (s : subscriber) :
  subs b !! i = Some s ->
  step (Wake i) b = Some b' ->
  exists f,
    subs b' !! i = Some (Subscriber (since s) (now b + timeout)
                           (yielded s ++ [(now b, f)]))
    /\ match update_queue b with
       | update :: rest => f = Data update /\ update_queue b' = rest
       | [] => f = Heartbeat /\ deadline s <= now b /\ update_queue b' = []
       end.
Proof.
  intros Hi Hs. pose proof (lookup_lt_Some _ _ _ Hi) as Hlt.
  simpl in Hs. rewrite Hi in Hs. unfold generate, queue_get in Hs.
  destruct (update_queue b) as [|update rest].
  - destruct (deadline s <=? now b) eqn:E; [|done]. apply Z.leb_le in E.
    inversion Hs; subst; clear Hs. simpl. exists Heartbeat.
    by rewrite list_lookup_insert_eq.
  - inversion Hs; subst; clear Hs. simpl. exists (Data update).
    by rewrite list_lookup_insert_eq.
Qed.

(** C5. For every consumer of the stream, in every reachable state: a
    stretch of heartbeats among its frames is one heartbeat every 30 units
    after the frame before the stretch (or after the connection when there
    is none), neither a gap nor a burst; silence never outlasts 30 units,
    for when a frame is due the clock cannot move and the consumer can
    yield; and the frame it yields is the oldest queued update whenever the
    queue holds one, a heartbeat only on an empty queue at the deadline. *)
Theorem heartbeat_cadence (sched : list action) (b : bus) (i : nat) (s : subscriber) :
  run sched init = Some b ->
  subs b !! i = Some s ->
  (forall pre hs post,
      yielded s = (pre ++ hs ++ post)%list ->
      Forall (fun f => snd f = Heartbeat) hs ->
      hs = beats (last_time (since s) pre) (length hs))
  /\ now b <= last_time (since s) (yielded s) + timeout
  /\ (now b = last_time (since s) (yielded s) + timeout ->
      step Tick b = None /\ exists b', step (Wake i) b = Some b')
  /\ (forall b',
        step (Wake i) b = Some b' ->
        exists f,
          subs b' !! i = Some (Subscriber (since s) (now b + timeout)
                                 (yielded s ++ [(now b, f)]))
          /\ match update_queue b with
             | update :: _ => f = Data update
             | [] => f = Heartbeat
                     /\ now b = last_time (since s) (yielded s) + timeout
             end).
Proof.
  intros Hr Hi. destruct (reachable_in_step _ _ _ _ Hr Hi) as (Hp & Hd & Hl).
  split.
  { intros pre hs post Hy Hh. rewrite Hy in Hp.
    apply paced_app_inv in Hp. by apply (paced_heartbeats _ hs post). }
  split; [lia|].
  split.
  { intros Hdue. assert (Hnb : blocked (now b) (update_queue b) s = false).
    { unfold blocked, generate, queue_get. destruct (update_queue b); [|done].
      destruct (deadline s <=? now b) eqn:E; [done|]. apply Z.leb_gt in E. lia. }
    split.
    - simpl. destruct (forallb _ _) eqn:Hb; [|done].
      rewrite List.forallb_forall in Hb.
      rewrite (Hb s) in Hnb; [done|]. apply list_elem_of_In.
      by apply (list_elem_of_lookup_2 _ i).
    - simpl. rewrite Hi. unfold blocked in Hnb.
      destruct (generate _ _ s) as [[q s']|]; [eauto|done]. }
  intros b' Hs. destruct (wake_frame _ _ _ _ Hi Hs) as (f & Hf & Hq).
  exists f. split; [done|].
  destruct (update_queue b); [|tauto]. destruct Hq as (-> & Hle & _). split; [done|lia].
Qed.

(** *** Who receives what *)

Lemma taken_by_app (i : nat) (l1 l2 : list (nat * json)) :
  taken_by i (l1 ++ l2) = (taken_by i l1 ++ taken_by i l2)%list.
Proof. unfold taken_by. by rewrite List.filter_app, map_app. Qed.

Lemma published_cons (a : action) (sched : list action) :
  published (a :: sched)
  = (match a with Put update => [update] | _ => [] end ++ published sched)%list.
Proof. by destruct a. Qed.

(** One action: the queue loses what is dequeued and gains what is put,
    and the dequeued update is appended to the frames of its taker alone. *)
Lemma step_hands_out (a : action) (b b' : bus) :
  step a b = Some b' ->
  (update_queue b ++ match a with Put update => [update] | _ => [] end)%list
  = (map snd (dequeued a b) ++ update_queue b')%list
  /\ (forall i, received b' i = (received b i ++ taken_by i (dequeued a b))%list)
  /\ (length (subs b) <= length (subs b'))%nat
  /\ Forall (fun e => (fst e < length (subs b))%nat) (dequeued a b).
Proof.
  intros Hs. destruct a as [update| |i0|].
  - inversion Hs; subst; clear Hs. unfold dequeued, received. simpl.
    split; [done|]. split; [intros i; by rewrite app_nil_r|]. split; [lia|constructor].
  - inversion Hs; subst; clear Hs. unfold dequeued, received. simpl.
    split; [by rewrite app_nil_r|]. split; [|split; [rewrite length_app; lia|constructor]].
    intros i. rewrite app_nil_r.
    destruct (decide (i < length (subs b))%nat) as [Hlt|Hge].
    + by rewrite lookup_app_l.
    + rewrite lookup_app_r by lia. rewrite (lookup_ge_None_2 (subs b) i) by lia.
      by destruct (i - length (subs b))%nat.
  - pose proof Hs as Hs'. simpl in Hs'.
    destruct (subs b !! i0) as [s|] eqn:Hi; [|done].
    destruct (wake_frame _ _ _ _ Hi Hs) as (f & Hf & Hq).
    pose proof (lookup_lt_Some _ _ _ Hi) as Hlt.
    assert (Hsubs : subs b' = <[i0 := Subscriber (since s) (now b + timeout)
                                          (yielded s ++ [(now b, f)])]> (subs b)).
    { destruct (generate _ _ s) as [[q s']|] eqn:Hg; [|done].
      inversion Hs'; subst; clear Hs'. simpl in *.
      rewrite list_lookup_insert_eq in Hf by done. by inversion Hf. }
    assert (Hrec : forall i got,
               delivered [(now b, f)] = got ->
               received b' i
               = (received b i ++ (if Nat.eqb i0 i then got else []))%list).
    { intros i got Hgot. unfold received. rewrite Hsubs.
      destruct (Nat.eqb i0 i) eqn:E.
      - apply Nat.eqb_eq in E. subst i. rewrite list_lookup_insert_eq by done.
        rewrite Hi. simpl. by rewrite delivered_app, Hgot.
      - apply Nat.eqb_neq in E. rewrite list_lookup_insert_ne by done.
        by rewrite app_nil_r. }
    unfold dequeued. destruct (update_queue b) as [|update rest].
    + destruct Hq as (-> & _ & ->). simpl.
      split; [done|]. split; [|split; [rewrite Hsubs, length_insert; lia|constructor]].
      intros i. rewrite (Hrec i [] eq_refl). by destruct (Nat.eqb i0 i).
    + destruct Hq as (-> & ->). simpl.
      split; [by rewrite app_nil_r|]. split; [|split; [rewrite Hsubs, length_insert; lia|]].
      * intros i. rewrite (Hrec i [update] eq_refl). unfold taken_by. simpl.
        by destruct (Nat.eqb i0 i).
      * constructor; [simpl; lia|constructor].
  - simpl in Hs. destruct (forallb _ _); [|done]. inversion Hs; subst; clear Hs.
    unfold dequeued, received. simpl.
    split; [by rewrite app_nil_r|]. split; [intros i; by rewrite app_nil_r|].
    split; [lia|constructor].
Qed.

Lemma run_hands_out (sched : list action) (b b' : bus) :
  run sched b = Some b' ->
  (update_queue b ++ published sched)%list
  = (map snd (dequeues sched b) ++ update_queue b')%list
  /\ (forall i, received b' i = (received b i ++ taken_by i (dequeues sched b))%list)
  /\ (length (subs b) <= length (subs b'))%nat
  /\ Forall (fun e => (fst e < length (subs b'))%nat) (dequeues sched b).
Proof.
  revert b. induction sched as [|a sched IH]; intros b Hr; simpl in Hr.
  - inversion Hr; subst. simpl. rewrite app_nil_r.
    split; [done|]. split; [intros i; by rewrite app_nil_r|]. split; [lia|constructor].
  - simpl dequeues. destruct (step a b) as [b1|] eqn:Hs; [|done].
    destruct (step_hands_out _ _ _ Hs) as (Hq1 & Hr1 & Hl1 & Hb1).
    destruct (IH b1 Hr) as (Hq2 & Hr2 & Hl2 & Hb2).
    split; [|split; [|split]].
    + rewrite published_cons, map_app, app_assoc, Hq1, <- !app_assoc. by rewrite Hq2.
    + intros i. by rewrite Hr2, Hr1, taken_by_app, app_assoc.
    + lia.
    + apply Forall_app. split; [|done].
      eapply Forall_impl; [exact Hb1|]. simpl. intros e He. lia.
Qed.

Lemma taken_by_only (log : list (nat * json)) :
  Forall (fun e => (fst e < 1)%nat) log -> taken_by 0 log = map snd log.
Proof.
  unfold taken_by. induction 1 as [|[i update] log Hi _ IH]; [done|].
  simpl in *. destruct i; [|lia]. simpl. by rewrite IH.
Qed.

(** C1, as the code has it. All consumers share the one queue, so along
    every schedule the updates leave it in publish order, each exactly once
    and to exactly one consumer, whichever dequeues it; what a consumer has
    received is what it dequeued, in order; with a single consumer that is
    every update published so far, less those still queued; and the update
    a consumer is handed is the oldest one still queued, whether it was
    published before or after that consumer connected. *)
Theorem queue_hands_out_once (sched : list action) (b : bus) :
  run sched init = Some b ->
  published sched = (map snd (dequeues sched init) ++ update_queue b)%list
  /\ (forall i s, subs b !! i = Some s ->
        delivered (yielded s) = taken_by i (dequeues sched init))
  /\ (forall s, subs b = [s] ->
        published sched = (delivered (yielded s) ++ update_queue b)%list)
  /\ (forall i update rest b',
        update_queue b = update :: rest ->
        step (Wake i) b = Some b' ->
        received b' i = (received b i ++ [update])%list /\ update_queue b' = rest).
Proof.
  intros Hr. destruct (run_hands_out _ _ _ Hr) as (Hq & Hrec & _ & Hb).
  simpl in Hq.
  assert (Htaken : forall i s, subs b !! i = Some s ->
                     delivered (yielded s) = taken_by i (dequeues sched init)).
  { intros i s Hi. specialize (Hrec i). unfold received in Hrec. rewrite Hi in Hrec.
    by simpl in Hrec. }
  split; [done|]. split; [done|]. split.
  - intros s Hone. rewrite Hq. f_equal.
    rewrite (Htaken 0%nat s) by (by rewrite Hone).
    symmetry. apply taken_by_only. by rewrite Hone in Hb.
  - intros i update rest b' Hqb Hs.
    destruct (step_hands_out _ _ _ Hs) as (Hq1 & Hr1 & _).
    unfold dequeued in Hq1, Hr1. rewrite Hqb in Hq1, Hr1. simpl in Hq1.
    split.
    + rewrite Hr1. unfold taken_by. simpl. by rewrite Nat.eqb_refl.
    + rewrite app_nil_r in Hq1. by inversion Hq1.
Qed.

(** *** Queueing without consumers, and the rhythm of frames *)

(** X14. While no client is connected nothing is dropped: the queue holds
    every update published so far, in publish order; and when a client then
    connects, the first frame it is handed is the oldest of them. *)
Theorem queue_without_consumers (sched : list action) (b : bus) :
  run sched init = Some b ->
  subs b = [] ->
  update_queue b = published sched
  /\ (forall update rest,
        update_queue b = update :: rest ->
        exists b', run [Connect; Wake 0] b = Some b'
                   /\ received b' 0 = [update] /\ update_queue b' = rest).
Proof.
  intros Hr Hnone. destruct (run_hands_out _ _ _ Hr) as (Hq & _ & _ & Hb).
  rewrite Hnone in Hb. simpl in Hq, Hb.
  assert (Hlog : dequeues sched init = []).
  { destruct (dequeues sched init) as [|e log]; [done|].
    inversion Hb as [|? ? He _]; subst. simpl in He. lia. }
  rewrite Hlog in Hq. simpl in Hq. split; [done|].
  intros update rest Hqb. simpl. rewrite Hnone, Hqb. simpl.
  eexists. split; [reflexivity|]. done.
Qed.

Lemma paced_bounds (p : Z) (frames : list (Z * sse)) :
  paced p frames ->
  p <= last_time p frames
  /\ last_time p frames <= p + timeout * Z.of_nat (length frames)
  /\ Forall (fun f => p <= fst f <= last_time p frames) frames.
Proof.
  revert p. induction frames as [|[t m] frames IH]; intros p Hp.
  - unfold last_time, timeout. simpl. split; [lia|]. split; [lia|constructor].
  - destruct Hp as (Ht & _ & Hp). destruct (IH t Hp) as (H1 & H2 & H3).
    rewrite last_time_cons. unfold timeout in *. simpl length.
    split; [lia|]. split; [lia|]. constructor; [simpl; lia|].
    eapply Forall_impl; [exact H3|]. simpl. intros f Hf. lia.
Qed.

(** X15. A connection is never silent for long: in every reachable state a
    consumer connected for [d] time units has been sent at least [d/30 - 1]
    frames, that is, [d <= 30 * (frames + 1)]; and every frame it was sent is
    stamped between its connection time and now. *)
Theorem stream_never_silent (sched : list action) (b : bus) (i : nat) (s : subscriber) :
  run sched init = Some b ->
  subs b !! i = Some s ->
  since s <= now b
  /\ now b - since s <= timeout * (Z.of_nat (length (yielded s)) + 1)
  /\ Forall (fun f => since s <= fst f <= now b) (yielded s).
Proof.
  intros Hr Hi. destruct (reachable_in_step _ _ _ _ Hr Hi) as (Hp & Hd & Hl).
  destruct (paced_bounds _ _ Hp) as (H1 & H2 & H3). unfold timeout in *.
  split; [lia|]. split; [lia|].
  eapply Forall_impl; [exact H3|]. simpl. intros f Hf. lia.
Qed.

End StreamFacts.
(* ===================================================================== *)
(** * Concrete runs *)
(* ===================================================================== *)

Lemma stop_idempotent_witness :
  stop_times workspace 3 completed_world
  = (repeat stopping_response 3, snd (stop_migration workspace completed_world))
  /\ (exists status',
        persisted workspace (snd (stop_times workspace 3 completed_world)) = JObj status'
        /\ dict_lookup "state" status' = Some (JStr "stopping")).
Proof. apply (stop_idempotent workspace completed_world completed_record 2). reflexivity. Defined.

Lemma stop_changes_only_state_witness :
  exists status',
    persisted workspace (snd (stop_migration workspace completed_world)) = JObj status'
    /\ dict_lookup "state" status' = Some (JStr "stopping")
    /\ (forall k, k <> "state" -> dict_lookup k status' = dict_lookup k completed_record)
    /\ (forall path, path <> STATUS_FILE workspace ->
          files (snd (stop_migration workspace completed_world)) !! path
          = files completed_world !! path)
    /\ update_queue (snd (stop_migration workspace completed_world)) = update_queue completed_world
    /\ threads (snd (stop_migration workspace completed_world)) = threads completed_world.
Proof. apply (stop_changes_only_state workspace completed_world completed_record). reflexivity. Defined.

(** C1, refuted as worded. With two consumers connected, an update taken by
    the first never reaches the second; and a consumer that connects after
    an update was published is handed that update. *)
Lemma shared_queue_is_not_a_broadcast :
  ~ Stream.claimed_fan_out /\ ~ Stream.claimed_no_replay.
Proof.
  split.
  - intros H.
    specialize (H [Stream.Connect; Stream.Connect; Stream.Put sample_update; Stream.Wake 0]
                  (Stream.Bus 0 []
                     [Stream.Subscriber 0 30 [(0, Stream.Data sample_update)];
                      Stream.Subscriber 0 30 []])
                  1%nat (Stream.Subscriber 0 30 []) eq_refl eq_refl eq_refl).
    discriminate H.
  - intros H.
    specialize (H [Stream.Put sample_update; Stream.Connect; Stream.Wake 0]
                  (Stream.Bus 0 [] [Stream.Subscriber 0 30 [(0, Stream.Data sample_update)]])
                  0%nat (Stream.Subscriber 0 30 [(0, Stream.Data sample_update)])
                  sample_update eq_refl eq_refl (or_introl eq_refl)).
    exact H.
Qed.

Lemma queue_hands_out_once_witness :
  Stream.run shared_schedule Stream.init = Some shared_bus
  /\ Stream.published shared_schedule
     = (map snd (Stream.dequeues shared_schedule Stream.init)
        ++ Stream.update_queue shared_bus)%list.
Proof.
  split; [reflexivity|].
  apply (proj1 (queue_hands_out_once shared_schedule shared_bus eq_refl)).
Defined.

Lemma heartbeat_cadence_witness :
  Stream.run idle_schedule Stream.init = Some idle_bus
  /\ Stream.subs idle_bus !! 0%nat = Some idle_consumer
  /\ Stream.yielded idle_consumer
     = Stream.beats (Stream.last_time (Stream.since idle_consumer) [])
         (length (Stream.yielded idle_consumer)).
Proof.
  split; [reflexivity|]. split; [reflexivity|].
  apply (proj1 (heartbeat_cadence idle_schedule idle_bus 0 idle_consumer eq_refl eq_refl)
           [] (Stream.yielded idle_consumer) []); [reflexivity|].
  repeat constructor.
Defined.

(** C2, refuted as worded: with a migration running, a second Start is
    answered 200 and a second thread is started. *)
Lemma start_while_running_is_accepted :
  ~ claimed_conflict_on_start.
Proof.
  intros H.
  destruct (H workspace start_request running_world running_record eq_refl eq_refl)
    as [H200 _].
  apply H200. reflexivity.
Qed.

Lemma start_ignores_state_witness :
  persisted workspace running_world = JObj running_record
  /\ fst (start_migration (JObj start_request) running_world) = started_response
  /\ threads (snd (start_migration (JObj start_request) running_world))
     = [(JStr "/mnt/old", JStr "/mnt/new"); (JStr "/mnt/a", JStr "/mnt/b")].
Proof.
  split; [reflexivity|].
  destruct (start_ignores_state workspace start_request running_world
              (JObj running_record) eq_refl eq_refl eq_refl) as (Hr & Ht & _).
  split; [exact Hr|exact Ht].
Defined.

Lemma run_migration_exit_nonzero_witness :
  1 <> 0
  /\ exists status,
      persisted workspace
        (run_migration workspace (JStr "/mnt/old") (JStr "/mnt/new") 100
           (Spawned [("copying", 101%Q)] (Exit 1)) 160 (fun w => w) empty_world)
      = JObj status
      /\ status = [("state", JStr "failed"); ("source", JStr "/mnt/old");
                   ("target", JStr "/mnt/new");
                   ("start_time", JNum 100); ("end_time", JNum 160)]
      /\ dict_lookup "error" status = None.
Proof.
  split; [lia|].
  apply (run_migration_exit_nonzero workspace (JStr "/mnt/old") (JStr "/mnt/new") 100 160
           [("copying", 101%Q)] 1 (fun w => w) empty_world).
  lia.
Defined.

(** C4, refuted as worded: Stop on the record of a completed run leaves
    [end_time] set under the state "stopping". *)
Lemma stop_after_completed_breaks_invariant :
  ~ claimed_stop_keeps_invariant.
Proof.
  intros H.
  destruct (H workspace completed_world completed_record eq_refl eq_refl)
    as (status' & Hp & Hinv).
  vm_compute in Hp. inversion Hp; subst. discriminate Hinv.
Qed.

Lemma record_invariant_by_write_witness :
  persisted workspace completed_world = JObj completed_record
  /\ (exists status',
        persisted workspace (snd (stop_migration workspace completed_world)) = JObj status'
        /\ is_set "end_time" status' = is_set "end_time" completed_record
        /\ is_set "error" status' = is_set "error" completed_record
        /\ record_invariant status'
           = negb (is_set "end_time" completed_record)
             && negb (is_set "error" completed_record))
  /\ (exists status',
        persisted workspace (on_exception workspace "No such file" 160 completed_world)
        = JObj status'
        /\ is_state "failed" status' = true
        /\ is_set "error" status' = true).
Proof.
  split; [reflexivity|].
  destruct (record_invariant_by_write workspace) as (_ & _ & _ & Hexc & Hstop).
  split.
  - apply (Hstop completed_world completed_record). reflexivity.
  - apply (Hexc "No such file" 160%Q completed_world completed_record). reflexivity.
Defined.

(** C6, refuted as worded: a transfers list holding a number gets no
    success rate, the request fails. *)
Lemma transfers_of_non_records_fail :
  ~ claimed_rate_for_every_list.
Proof.
  intros H.
  destruct (H workspace odd_metrics_world
              [("transfers", JArr [JNum 1])] [JNum 1] eq_refl eq_refl)
    as [rate Hrate].
  discriminate Hrate.
Qed.

Lemma transfers_success_rate_witness :
  load_json_file (files sample_metrics_world) (METRICS_FILE workspace) JNull
  = JObj [("transfers", JArr sample_transfers)]
  /\ forallb is_dict sample_transfers = true
  /\ exists rate : Q,
      get_transfers workspace sample_metrics_world
      = Response 200
          (JObj [("transfers", JArr sample_transfers);
                 ("total_count", JNum (inject_Z (Z.of_nat (length sample_transfers))));
                 ("success_rate", JNum rate)])
      /\ (sample_transfers <> [] ->
          rate = round64
                   (round64
                      (inject_Z (Z.of_nat (length (List.filter truthy_success
                                                     sample_transfers)))
                       / inject_Z (Z.of_nat (length sample_transfers)))
                    * 100)%Q)
      /\ (sample_transfers = sample_transfers ->
          (rate == 2345624805922133 # 35184372088832)%Q
          /\ (66665 # 1000 <= rate)%Q /\ (rate < 66675 # 1000)%Q)
      /\ (sample_transfers = [] -> (rate == 0)%Q).
Proof.
  split; [reflexivity|]. split; [reflexivity|].
  apply (proj1 (transfers_success_rate workspace
                  sample_metrics_world
                  [("transfers", JArr sample_transfers)] sample_transfers
                  eq_refl eq_refl)).
  reflexivity.
Defined.

(** C7, refuted as worded: a body that is a JSON list has no source and no
    target, and the answer is a 500, not a 400. *)
Lemma start_without_a_dict_body_raises :
  ~ claimed_start_validation.
Proof.
  intros H. destruct (H (JArr []) empty_world) as [H400 _].
  - left. by left.
  - discriminate H400.
Qed.

Lemma start_validates_witness :
  is_dict JNull = false
  /\ start_migration JNull empty_world = (Raised AttributeError, empty_world)
  /\ start_migration (JObj [("source", JNum 0); ("target", JStr "/mnt/b")]) empty_world
     = (required_response, empty_world)
  /\ start_migration (JObj start_request) empty_world
     = (started_response, World (files empty_world) [] [(JStr "/mnt/a", JStr "/mnt/b")]).
Proof.
  split; [reflexivity|]. split; [|split].
  - apply (proj1 (start_validates JNull empty_world)). reflexivity.
  - destruct (start_validates (JObj [("source", JNum 0); ("target", JStr "/mnt/b")])
                empty_world) as (_ & H & _).
    destruct (H _ eq_refl) as (Hreject & _). apply Hreject. left. reflexivity.
  - destruct (start_validates (JObj start_request) empty_world) as (_ & H & _).
    destruct (H _ eq_refl) as (_ & Haccept & _). apply Haccept; reflexivity.
Defined.

(** C8, refuted as worded: with no status file, the read gives the empty
    document, which has no [state] field. *)
Lemma read_of_missing_status_is_empty :
  ~ claimed_idle_default.
Proof.
  intros H. specialize (H workspace empty_world eq_refl). discriminate H.
Qed.

Lemma missing_file_defaults_witness :
  files empty_world !! STATUS_FILE workspace = None
  /\ persisted workspace empty_world = JObj []
  /\ persisted workspace (main_init workspace empty_world) = JObj [("state", JStr "idle")].
Proof.
  split; [reflexivity|].
  destruct (missing_file_defaults workspace empty_world) as (Hread & _ & _ & _ & Hinit).
  split.
  - apply Hread. left. reflexivity.
  - apply Hinit. reflexivity.
Defined.

(** ** Concrete runs of the further properties *)

Lemma status_writers_leave_documents_witness :
  "/etc/passwd" <> STATUS_FILE workspace
  /\ files (snd (stop_migration workspace completed_world)) !! "/etc/passwd"
     = files completed_world !! "/etc/passwd".
Proof.
  assert (H : "/etc/passwd" <> STATUS_FILE workspace) by discriminate.
  split; [exact H|].
  destruct (status_writers_leave_documents workspace completed_world)
    as (Hstop & _).
  apply Hstop. exact H.
Defined.

Lemma transfers_rate_is_a_percentage_witness :
  load_json_file (files sample_metrics_world) (METRICS_FILE workspace) JNull
  = JObj [("transfers", JArr sample_transfers)]
  /\ exists rate : Q,
      get_transfers workspace sample_metrics_world
      = Response 200
          (JObj [("transfers", JArr sample_transfers);
                 ("total_count", JNum (inject_Z (Z.of_nat (length sample_transfers))));
                 ("success_rate", JNum rate)])
      /\ (0 <= rate)%Q /\ (rate <= 100)%Q.
Proof.
  split; [reflexivity|].
  apply (transfers_rate_is_a_percentage workspace
           sample_metrics_world
           [("transfers", JArr sample_transfers)] sample_transfers);
    [reflexivity|left; reflexivity|reflexivity].
Defined.

Lemma transfers_faults_witness :
  forallb is_dict [JNum 1] = false
  /\ get_transfers workspace odd_metrics_world = Raised AttributeError.
Proof.
  split; [reflexivity|].
  destruct (transfers_faults workspace odd_metrics_world) as (_ & Hentry & _).
  apply (Hentry [("transfers", JArr [JNum 1])] [JNum 1]); reflexivity.
Defined.

Lemma start_migration_safe_witness :
  is_dict (JArr []) = false
  /\ start_migration (JArr []) running_world = (Raised AttributeError, running_world)
  /\ forallb truthy_args (threads (snd (start_migration (JObj start_request) running_world)))
     = true.
Proof.
  split; [reflexivity|]. split.
  - destruct (start_migration_safe (JArr []) running_world) as (_ & _ & H & _).
    apply H. reflexivity.
  - destruct (start_migration_safe (JObj start_request) running_world)
      as (_ & _ & _ & _ & _ & H).
    apply H. reflexivity.
Defined.

Lemma stop_on_odd_records_witness :
  stop_migration workspace list_status_world = (Raised TypeError, list_status_world)
  /\ files (snd (stop_migration workspace empty_world)) !! STATUS_FILE workspace
     = Some (JsonFile (JObj [("state", JStr "stopping")])).
Proof.
  split.
  - destruct (stop_on_odd_records workspace list_status_world) as [H _].
    apply (H (JArr [])); reflexivity.
  - destruct (stop_on_odd_records workspace empty_world) as [_ H].
    destruct (H eq_refl) as [_ Hfile]. exact Hfile.
Defined.

Lemma run_migration_on_exception_witness :
  persisted workspace
    (run_migration workspace (JStr "/mnt/old") (JStr "/mnt/new") 100
       (Spawned [("1 of 3", 101%Q); ("", 102%Q)] (ReadRaises "Input/output error"))
       160 (fun w => w) empty_world)
  = JObj [("state", JStr "failed"); ("source", JStr "/mnt/old"); ("target", JStr "/mnt/new");
          ("start_time", JNum 100); ("error", JStr "Input/output error")].
Proof.
  apply (run_migration_on_exception workspace (JStr "/mnt/old") (JStr "/mnt/new")
           100 160 "Input/output error"
           (Spawned [("1 of 3", 101%Q); ("", 102%Q)] (ReadRaises "Input/output error"))
           [("1 of 3", 101%Q); ("", 102%Q)] empty_world).
  right. reflexivity.
Defined.

Lemma main_init_keeps_record_witness :
  files running_world !! STATUS_FILE workspace = Some (JsonFile (JObj running_record))
  /\ main_init workspace running_world = running_world.
Proof.
  split; [reflexivity|].
  destruct (main_init_keeps_record workspace running_world) as [H _].
  apply (H (JsonFile (JObj running_record))). reflexivity.
Defined.

Lemma queue_without_consumers_witness :
  Stream.run early_schedule Stream.init = Some early_bus
  /\ Stream.subs early_bus = []
  /\ Stream.update_queue early_bus = Stream.published early_schedule.
Proof.
  split; [reflexivity|]. split; [reflexivity|].
  apply (proj1 (queue_without_consumers early_schedule early_bus eq_refl eq_refl)).
Defined.

Lemma stream_never_silent_witness :
  Stream.run idle_schedule Stream.init = Some idle_bus
  /\ Stream.subs idle_bus !! 0%nat = Some idle_consumer
  /\ Stream.now idle_bus - Stream.since idle_consumer
     <= Stream.timeout * (Z.of_nat (length (Stream.yielded idle_consumer)) + 1).
Proof.
  split; [reflexivity|]. split; [reflexivity|].
  destruct (stream_never_silent idle_schedule idle_bus 0 idle_consumer eq_refl eq_refl)
    as (_ & H & _).
  exact H.
Defined.

Lemma start_run_status_witness :
  exists source target,
    threads (snd (start_migration (JObj start_request) empty_world))
    = (threads empty_world ++ [(source, target)])%list
    /\ get_status workspace JNull "2026-01-01T00:00:00"
         (run_migration workspace source target 100 (Spawned [] (Exit 0)) 160 (fun w => w)
            (snd (start_migration (JObj start_request) empty_world)))
       = Response 200
           (JObj [("status",
                   JObj [("state", JStr "completed");
                         ("source", dict_get "source" JNull start_request);
                         ("target", dict_get "target" JNull start_request);
                         ("start_time", JNum 100); ("end_time", JNum 160)]);
                  ("system_metrics", JNull);
                  ("timestamp", JStr "2026-01-01T00:00:00")]).
Proof.
  apply (start_run_status workspace start_request empty_world 100 160 []
           (fun w => w) JNull "2026-01-01T00:00:00"); reflexivity.
Defined.

Lemma document_paths_distinct_witness :
  STATUS_FILE workspace <> config_file workspace
  /\ load_json_file (save_json_file ∅ (STATUS_FILE workspace) (JObj running_record))
       (config_file workspace) JNull
     = load_json_file ∅ (config_file workspace) JNull.
Proof.
  assert (H : STATUS_FILE workspace <> config_file workspace) by discriminate.
  split; [exact H|].
  destruct (document_paths_distinct workspace ∅ (JObj running_record) JNull) as [_ Hframe].
  apply Hframe; [left; reflexivity|right; right; right; left; reflexivity|exact H].
Defined.
